(** * Visualisasi-NYC-YT: the data loader ([utils/data_loader.py])

    A shallow embedding of the two functions of the loader module,
    [load_data_from_gdrive] (the Remote Fetcher) and [prepare_taxi_data]
    (the Normalizer), and the properties their specification states.

    Python strings are modelled as [string] (8-bit characters); the three
    regular expressions and the keyword test only ever look at ASCII
    characters. *)

From Stdlib Require Import ZArith NArith String Ascii DecimalString Bool Lia Arith List.
Import ListNotations.

Open Scope string_scope.
Open Scope list_scope.

(** ** Part I. Definitions *)

(** *** Regular expressions of the Fetcher *)

Module Re.

(** The character class [[a-zA-Z0-9_-]]. *)
Definition is_id_char (c : ascii) : bool :=
  let n := N_of_ascii c in
  ((97 <=? n) && (n <=? 122) || (65 <=? n) && (n <=? 90)
   || (48 <=? n) && (n <=? 57) || (n =? 95) || (n =? 45))%N.

(** The greedy run [[...]+] takes every character of the class it can. *)
Fixpoint take_while (p : ascii -> bool) (s : string) : string :=
  match s with
  | EmptyString => EmptyString
  | String c s' => if p c then String c (take_while p s') else EmptyString
  end.

(** Matching the literal part of a pattern at the head of [s]. *)
Fixpoint strip_prefix (lit s : string) : option string :=
  match lit with
  | EmptyString => Some s
  | String a lit' =>
      match s with
      | EmptyString => None
      | String b s' => if Ascii.eqb a b then strip_prefix lit' s' else None
      end
  end.

(** [lit([a-zA-Z0-9_-]+)] anchored at the head of [s]: group 1, if any. *)
Definition match_here (lit s : string) : option string :=
  match strip_prefix lit s with
  | None => None
  | Some rest =>
      match take_while is_id_char rest with
      | EmptyString => None
      | id => Some id
      end
  end.

(** [re.search(lit + '([a-zA-Z0-9_-]+)', s)], returning [group(1)] of the
    match: start positions are tried from left to right. *)
Fixpoint search (lit s : string) : option string :=
  match match_here lit s with
  | Some id => Some id
  | None =>
      match s with
      | EmptyString => None
      | String _ s' => search lit s'
      end
  end.

End Re.

(** [r'/file/d/([a-zA-Z0-9_-]+)'], [r'id=([a-zA-Z0-9_-]+)'] and
    [r'/open\?id=([a-zA-Z0-9_-]+)'], given by their literal parts. *)
Definition pattern1 : string := "/file/d/".
Definition pattern2 : string := "id=".
Definition pattern3 : string := "/open?id=".

(** Python's [not file_id] on a value that is [None] or a string. *)
Definition is_falsy (file_id : option string) : bool :=
  match file_id with
  | None => true
  | Some EmptyString => true
  | Some _ => false
  end.

(** Lines 26-46 of [load_data_from_gdrive]: the value of [file_id] when the
    three pattern blocks have run. *)
Definition extract_file_id (gdrive_url : string) : option string :=
  let file_id := None in
  let file_id :=
    match Re.search pattern1 gdrive_url with
    | Some g => Some g
    | None => file_id
    end in
  let file_id :=
    if is_falsy file_id then
      match Re.search pattern2 gdrive_url with
      | Some g => Some g
      | None => file_id
      end
    else file_id in
  let file_id :=
    if is_falsy file_id then
      match Re.search pattern3 gdrive_url with
      | Some g => Some g
      | None => file_id
      end
    else file_id in
  file_id.

(** The same extraction with the third pattern block left out. *)
Definition extract_file_id_two_patterns (gdrive_url : string) : option string :=
  let file_id := None in
  let file_id :=
    match Re.search pattern1 gdrive_url with
    | Some g => Some g
    | None => file_id
    end in
  let file_id :=
    if is_falsy file_id then
      match Re.search pattern2 gdrive_url with
      | Some g => Some g
      | None => file_id
      end
    else file_id in
  file_id.

(** *** Exceptions *)

(** The handlers of the module tell [AttributeError] from every other
    [Exception]. *)
Inductive exn : Type :=
| AttributeError (msg : string)
| Exception (msg : string).

(** A call that returns or raises. *)
Inductive result (A : Type) : Type :=
| Ok (a : A)
| Raised (e : exn).

Arguments Ok {A} a.
Arguments Raised {A} e.

Definition bind {A B : Type} (m : result A) (k : A -> result B) : result B :=
  match m with
  | Ok a => k a
  | Raised e => Raised e
  end.

(** [try: m  except: h] with a handler that catches every exception. *)
Definition try_except {A : Type} (m : result A) (h : exn -> result A) : result A :=
  match m with
  | Ok a => Ok a
  | Raised e => h e
  end.

Notation "x <- m ;; k" := (bind m (fun x => k))
  (at level 61, m at next level, right associativity).

(** A loop body run over a list, left to right, stopping at the first raise. *)
Fixpoint for_each {A B : Type} (f : A -> result B) (l : list A) : result (list B) :=
  match l with
  | [] => Ok []
  | a :: l' => b <- f a ;; bs <- for_each f l' ;; Ok (b :: bs)
  end.

(** *** Tabular data *)

(** A float64 value other than NaN, named by an integer code, one code per
    value: the loader never computes with floats, it only compares them. *)
Definition float64 : Type := Z.

Inductive int_width : Type := I8 | I16 | I32 | I64.

(** A column's data with its dtype: float64 (NaN is [None]), a signed
    integer dtype, datetime64[ns] in nanoseconds since the epoch (NaT is
    [None]), or object holding text (a missing entry is [None]). *)
Inductive series : Type :=
| FloatSeries (values : list (option float64))
| IntSeries (width : int_width) (values : list Z)
| DatetimeSeries (values : list (option Z))
| ObjectSeries (values : list (option string)).

Record column : Type := Column { col_name : string; col_data : series }.

(** A frame: its row labels and its columns. [df[col]] selects one column;
    column labels are strings, distinct from one another (the parsers of the
    Fetcher rename repeated header names). *)
Record DataFrame : Type := Frame { index : list Z; columns : list column }.

Definition len (df : DataFrame) : nat := length (index df).

Definition series_length (s : series) : nat :=
  match s with
  | FloatSeries vs => length vs
  | IntSeries _ vs => length vs
  | DatetimeSeries vs => length vs
  | ObjectSeries vs => length vs
  end.

(** The row count invariant of the data model: every column has one entry
    per row label. *)
Definition well_formed (df : DataFrame) : Prop :=
  Forall (fun c => series_length (col_data c) = len df) (columns df).

(** *** pandas: dtype tests and numeric coercion *)

Definition is_float_dtype (s : series) : bool :=
  match s with FloatSeries _ => true | _ => false end.

Definition is_integer_dtype (s : series) : bool :=
  match s with IntSeries _ _ => true | _ => false end.

Definition itemsize (w : int_width) : nat :=
  match w with I8 => 1 | I16 => 2 | I32 => 4 | I64 => 8 end.

Definition fits (w : int_width) (z : Z) : bool :=
  let half := (2 ^ (8 * Z.of_nat (itemsize w) - 1))%Z in
  ((- half <=? z) && (z <? half))%Z.

(** [downcast='integer']: the signed integer types are tried from the
    smallest, skipping those wider than the column's own, and the first one
    that holds every value is taken; the dtype stays when none does. *)
Definition downcast_integer (w : int_width) (vs : list Z) : int_width :=
  match find (fun c => Nat.leb (itemsize c) (itemsize w) && forallb (fits c) vs)
             [I8; I16; I32; I64] with
  | Some c => c
  | None => w
  end.

(** [pd.to_numeric(s, errors='coerce')] and
    [pd.to_numeric(s, errors='coerce', downcast='integer')] on a column that
    already has a numeric dtype: no entry is left to parse, so none is
    replaced by null, the values stay, and the downcast narrows an integer
    dtype. The Normalizer calls it on float and integer columns only; other
    dtypes are not modelled and come back as they are. *)
Definition to_numeric (downcast : bool) (s : series) : series :=
  match s with
  | IntSeries w vs => if downcast then IntSeries (downcast_integer w vs) vs else s
  | _ => s
  end.

(** *** pandas: timestamp parsing *)

(** What [pd.to_datetime] is given in one entry that is not null and not
    yet a timestamp. *)
Inductive scalar : Type :=
| IntScalar (z : Z)
| FloatScalar (f : float64)
| TextScalar (s : string).

(** With [errors='coerce'] an entry parses to a timestamp or is
    unparseable (and becomes NaT); some entries make the call raise all the
    same, whatever [errors] says. *)
Inductive parse_outcome : Type :=
| Timestamp (ns : Z)
| Unparseable
| Fails (e : exn).

(** The library's per-entry parser is left open. *)
Record pandas : Type := Pandas { parse_timestamp : scalar -> parse_outcome }.

Definition entry_to_datetime (P : pandas) (v : option scalar) : result (option Z) :=
  match v with
  | None => Ok None
  | Some x =>
      match parse_timestamp P x with
      | Timestamp ns => Ok (Some ns)
      | Unparseable => Ok None
      | Fails e => Raised e
      end
  end.

(** The entries of a column that [pd.to_datetime] has to parse; a
    datetime64 column has none left. *)
Definition scalars (s : series) : list (option scalar) :=
  match s with
  | FloatSeries vs => map (option_map FloatScalar) vs
  | IntSeries _ vs => map (fun z => Some (IntScalar z)) vs
  | DatetimeSeries _ => []
  | ObjectSeries vs => map (option_map TextScalar) vs
  end.

(** [pd.to_datetime(s, errors='coerce')]: a datetime64 column is returned
    as it is; any other column is converted entry by entry, and the call
    raises when an entry does. *)
Definition to_datetime (P : pandas) (s : series) : result series :=
  match s with
  | DatetimeSeries ts => Ok (DatetimeSeries ts)
  | _ => ts <- for_each (entry_to_datetime P) (scalars s) ;; Ok (DatetimeSeries ts)
  end.

(** *** pandas: duplicate rows *)

Inductive cell : Type :=
| FloatCell (v : option float64)
| IntCell (z : Z)
| TimeCell (t : option Z)
| TextCell (s : option string).

Definition cells (s : series) : list cell :=
  match s with
  | FloatSeries vs => map FloatCell vs
  | IntSeries _ vs => map IntCell vs
  | DatetimeSeries vs => map TimeCell vs
  | ObjectSeries vs => map TextCell vs
  end.

Definition row : Type := list (option cell).

Definition row_at (cols : list column) (i : nat) : row :=
  map (fun c => nth_error (cells (col_data c)) i) cols.

Definition rows (df : DataFrame) : list row :=
  map (row_at (columns df)) (seq 0 (len df)).

Definition option_eq_dec {A : Type} (dec : forall x y : A, {x = y} + {x <> y})
  (x y : option A) : {x = y} + {x <> y}.
Proof. decide equality. Defined.

Definition cell_eq_dec (x y : cell) : {x = y} + {x <> y}.
Proof.
  decide equality; try apply option_eq_dec;
    try apply Z.eq_dec; try apply string_dec.
Defined.

Definition row_eq_dec : forall r r' : row, {r = r'} + {r <> r'} :=
  list_eq_dec (option_eq_dec cell_eq_dec).

Definition row_in (r : row) (seen : list row) : bool :=
  if in_dec row_eq_dec r seen then true else false.

(** [DataFrame.duplicated()] with [keep='first']: a row is marked when an
    earlier row has the same values in every column. *)
Fixpoint duplicated_from (seen : list row) (rs : list row) : list bool :=
  match rs with
  | [] => []
  | r :: rs' => row_in r seen :: duplicated_from (r :: seen) rs'
  end.

Definition duplicated (df : DataFrame) : list bool := duplicated_from [] (rows df).

(** Boolean indexing with the negated mask, [x[~mask]]. *)
Fixpoint drop_marked {A : Type} (mask : list bool) (l : list A) : list A :=
  match mask, l with
  | m :: mask', x :: l' =>
      if m then drop_marked mask' l' else x :: drop_marked mask' l'
  | _, _ => []
  end.

Definition series_drop_marked (mask : list bool) (s : series) : series :=
  match s with
  | FloatSeries vs => FloatSeries (drop_marked mask vs)
  | IntSeries w vs => IntSeries w (drop_marked mask vs)
  | DatetimeSeries vs => DatetimeSeries (drop_marked mask vs)
  | ObjectSeries vs => ObjectSeries (drop_marked mask vs)
  end.

(** [DataFrame.empty]: some axis has length 0. *)
Definition empty (df : DataFrame) : bool :=
  Nat.eqb (len df) 0 || Nat.eqb (length (columns df)) 0.

(** [df[~mask]]: the kept rows keep their labels. *)
Definition frame_drop_marked (mask : list bool) (df : DataFrame) : DataFrame :=
  {| index := drop_marked mask (index df);
     columns := map (fun c => {| col_name := col_name c;
                                 col_data := series_drop_marked mask (col_data c) |})
                    (columns df) |}.

(** [DataFrame.drop_duplicates()]: an empty frame is copied; otherwise the
    marked rows are dropped. *)
Definition drop_duplicates (df : DataFrame) : DataFrame :=
  if empty df then df else frame_drop_marked (duplicated df) df.

(** *** The Normalizer: [prepare_taxi_data] *)

Definition lower_char (c : ascii) : ascii :=
  let n := N_of_ascii c in
  if ((65 <=? n) && (n <=? 90))%N then ascii_of_N (n + 32) else c.

(** [str.lower()]. *)
Fixpoint lower (s : string) : string :=
  match s with
  | EmptyString => EmptyString
  | String c s' => String (lower_char c) (lower s')
  end.

(** [needle in hay] on strings. *)
Fixpoint contains (needle hay : string) : bool :=
  if String.prefix needle hay then true
  else
    match hay with
    | EmptyString => false
    | String _ hay' => contains needle hay'
    end.

Definition datetime_keywords : list string := ["pickup"; "dropoff"; "date"; "time"].

(** [any(keyword in col.lower() for keyword in [...])]. *)
Definition is_datetime_name (col : string) : bool :=
  existsb (fun keyword => contains keyword (lower col)) datetime_keywords.

(** [df_clean[col] = s]. *)
Definition assign (c : column) (s : series) : column :=
  {| col_name := col_name c; col_data := s |}.

(** Body of the first loop (lines 142-147). *)
Definition numeric_step (c : column) : result column :=
  if is_float_dtype (col_data c) then
    Ok (assign c (to_numeric false (col_data c)))
  else if is_integer_dtype (col_data c) then
    Ok (assign c (to_numeric true (col_data c)))
  else Ok c.

(** Body of the second loop (lines 152-157); [datetime_cols] is only
    appended to and never read, it is left out. *)
Definition datetime_step (P : pandas) (c : column) : result column :=
  if is_datetime_name (col_name c) then
    try_except (s <- to_datetime P (col_data c) ;; Ok (assign c s))
               (fun _ => Ok c)
  else Ok c.

(** The [st.info] of line 165. *)
Inductive note : Type := RemovedDuplicates (removed_rows : nat).

Definition prepare_taxi_data (P : pandas) (df : DataFrame)
  : result (DataFrame * list note) :=
  let df_clean := df in
  cols <- for_each numeric_step (columns df_clean) ;;
  let df_clean := {| index := index df_clean; columns := cols |} in
  cols <- for_each (datetime_step P) (columns df_clean) ;;
  let df_clean := {| index := index df_clean; columns := cols |} in
  let initial_rows := len df_clean in
  let df_clean := drop_duplicates df_clean in
  let removed_rows := initial_rows - len df_clean in
  let notes := if Nat.ltb 0 removed_rows then [RemovedDuplicates removed_rows] else [] in
  Ok (df_clean, notes).

(** *** The Fetcher: [load_data_from_gdrive] *)

Definition bytes : Type := string.

(** The working directory: the files that exist, newest entry first. *)
Definition filesystem : Type := list (string * bytes).

(** [os.path.exists]. *)
Definition path_exists (path : string) (fs : filesystem) : bool :=
  existsb (fun entry => String.eqb (fst entry) path) fs.

Definition read_file (path : string) (fs : filesystem) : option bytes :=
  option_map snd (find (fun entry => String.eqb (fst entry) path) fs).

(** [f.write(content)] on a file opened with ['wb']. *)
Definition write_file (path : string) (content : bytes) (fs : filesystem) : filesystem :=
  (path, content) :: fs.

(** What the Fetcher calls and does not own: [gdown.download], which
    returns a path or [None] and may leave a file behind, [requests.get]
    with its status code and body, [open(.., 'wb')], and the three pandas
    readers. *)
Record world : Type := World {
  gdown_download : string -> string -> filesystem -> result (option string) * filesystem;
  requests_get : string -> result (Z * bytes);
  open_wb : string -> filesystem -> result unit;
  read_csv : string -> filesystem -> result DataFrame;
  read_parquet : string -> filesystem -> result DataFrame;
  read_excel : string -> filesystem -> result DataFrame
}.

(** The texts shown to the user, by the line that shows them. *)
Inductive message : Type :=
| MsgInvalidUrl
| MsgUrlExamples
| MsgFileIdDetected (file_id : string)
| MsgDownloading
| MsgAlternativeDownload
| MsgHttpStatus (status_code : Z)
| MsgRequestError (req_error : exn)
| MsgGdownError (e : exn)
| MsgGdownHint
| MsgDownloadFailed
| MsgPermissionHelp (step : nat)
| MsgLoadingFile (output_filename : string)
| MsgUnsupportedFormat
| MsgLoaded (n_rows n_columns : nat)
| MsgLoadError (e : exn)
| MsgTroubleshooting (step : nat).

Inductive reader : Type := ReadCsv | ReadParquet | ReadExcel.

(** What a call of the Fetcher does, in order. *)
Inductive event : Type :=
| StError (m : message)
| StInfo (m : message)
| StWarning (m : message)
| StSuccess (m : message)
| StSpinner (m : message)
| GdownDownload (url output : string)
| RequestsGet (url : string)
| FileWrite (path : string) (content : bytes)
| Parse (r : reader) (path : string).

Record run : Type := Run {
  returned : option DataFrame;
  disk : filesystem;
  trace : list event
}.

(** An f-string field holding [file_id]. *)
Definition format_value (v : option string) : string :=
  match v with
  | Some s => s
  | None => "None"
  end.

(** [str.endswith]. *)
Fixpoint ends_with (s suffix : string) : bool :=
  if String.eqb s suffix then true
  else
    match s with
    | EmptyString => false
    | String _ s' => ends_with s' suffix
    end.

(** The download block either makes the function return [None] or leaves
    a value in [result]. *)
Inductive download_status : Type :=
| ReturnedNone
| Result (result : option string).

(** Lines 64-87. A failing [import requests] counts as a raising
    [requests.get]. *)
Definition download (W : world) (download_url output_filename : string)
  (fs : filesystem) : download_status * filesystem * list event :=
  let (r, fs1) := gdown_download W download_url output_filename fs in
  let t := [GdownDownload download_url output_filename] in
  match r with
  | Ok result => (Result result, fs1, t)
  | Raised (AttributeError _) =>
      let t := t ++ [StWarning MsgAlternativeDownload; RequestsGet download_url] in
      match requests_get W download_url with
      | Ok (status_code, content) =>
          if (status_code =? 200)%Z then
            match open_wb W output_filename fs1 with
            | Ok _ =>
                (Result (Some output_filename),
                 write_file output_filename content fs1,
                 t ++ [FileWrite output_filename content])
            | Raised req_error =>
                (ReturnedNone, fs1, t ++ [StError (MsgRequestError req_error)])
            end
          else (ReturnedNone, fs1, t ++ [StError (MsgHttpStatus status_code)])
      | Raised req_error =>
          (ReturnedNone, fs1, t ++ [StError (MsgRequestError req_error)])
      end
  | Raised e =>
      (ReturnedNone, fs1, t ++ [StError (MsgGdownError e); StInfo MsgGdownHint])
  end.

(** Lines 101-109: the reader chosen by the file name, [None] when the
    [else] branch is taken. *)
Definition choose_reader (output_filename : string) : option reader :=
  if ends_with output_filename ".csv" then Some ReadCsv
  else if ends_with output_filename ".parquet" then Some ReadParquet
  else if ends_with output_filename ".xlsx" || ends_with output_filename ".xls"
  then Some ReadExcel
  else None.

Definition call_reader (W : world) (r : reader) : string -> filesystem -> result DataFrame :=
  match r with
  | ReadCsv => read_csv W
  | ReadParquet => read_parquet W
  | ReadExcel => read_excel W
  end.

Definition permission_help : list event :=
  map (fun step => StInfo (MsgPermissionHelp step)) (seq 0 5).

Definition troubleshooting : list event :=
  map (fun step => StInfo (MsgTroubleshooting step)) (seq 0 4).

(** Line 59. *)
Definition download_url_of (file_id : option string) : string :=
  ("https://drive.google.com/uc?id=" ++ format_value file_id)%string.

Definition load_data_from_gdrive (W : world) (gdrive_url output_filename : string)
  (fs : filesystem) : run :=
  let file_id := extract_file_id gdrive_url in
  if is_falsy file_id then
    {| returned := None; disk := fs;
       trace := [StError MsgInvalidUrl; StInfo MsgUrlExamples] |}
  else
    let download_url := download_url_of file_id in
    let t := [StInfo (MsgFileIdDetected (format_value file_id)); StSpinner MsgDownloading] in
    match download W download_url output_filename fs with
    | (ReturnedNone, fs1, t1) => {| returned := None; disk := fs1; trace := t ++ t1 |}
    | (Result result, fs1, t1) =>
        let t := t ++ t1 in
        if match result with None => true | Some _ => false end
           || negb (path_exists output_filename fs1)
        then
          {| returned := None; disk := fs1;
             trace := t ++ StError MsgDownloadFailed :: permission_help |}
        else
          let t := t ++ [StInfo (MsgLoadingFile output_filename)] in
          match choose_reader output_filename with
          | None =>
              {| returned := None; disk := fs1;
                 trace := t ++ [StError MsgUnsupportedFormat] |}
          | Some r =>
              let t := t ++ [Parse r output_filename] in
              match call_reader W r output_filename fs1 with
              | Ok df =>
                  {| returned := Some df; disk := fs1;
                     trace := t ++ [StSuccess (MsgLoaded (len df) (length (columns df)))] |}
              | Raised e =>
                  {| returned := None; disk := fs1;
                     trace := t ++ StError (MsgLoadError e) :: troubleshooting |}
              end
          end
    end.

(** *** The outcome of a load, in the words of the specification *)

Inductive failure : Type :=
| InvalidReference
| DownloadError
| UnsupportedFormat
| ParseError.

(** The failure an error message stands for. *)
Definition failure_of (m : message) : list failure :=
  match m with
  | MsgInvalidUrl => [InvalidReference]
  | MsgHttpStatus _ | MsgRequestError _ | MsgGdownError _ | MsgDownloadFailed =>
      [DownloadError]
  | MsgUnsupportedFormat => [UnsupportedFormat]
  | MsgLoadError _ => [ParseError]
  | _ => []
  end.

Definition reported (t : list event) : list failure :=
  flat_map (fun e => match e with StError m => failure_of m | _ => [] end) t.

Inductive LoadResult : Type :=
| Loaded (df : DataFrame)
| Failed (reasons : list failure).

Definition load_result (r : run) : LoadResult :=
  match returned r with
  | Some df => Loaded df
  | None => Failed (reported (trace r))
  end.

Definition is_network_call (e : event) : bool :=
  match e with
  | GdownDownload _ _ | RequestsGet _ => true
  | _ => false
  end.

Definition is_file_write (e : event) : bool :=
  match e with FileWrite _ _ => true | _ => false end.

Definition is_parse (e : event) : bool :=
  match e with Parse _ _ => true | _ => false end.

(** *** What a pattern captures *)

Fixpoint all_chars (p : ascii -> bool) (s : string) : bool :=
  match s with
  | EmptyString => true
  | String c s' => p c && all_chars p s'
  end.

Definition starts_with_char (p : ascii -> bool) (s : string) : bool :=
  match s with
  | EmptyString => false
  | String c _ => p c
  end.

(** [id] is group 1 of the leftmost match of [lit([a-zA-Z0-9_-]+)] in [s]:
    [s] is [pre ++ lit ++ id ++ post], [id] is a non-empty run of
    identifier characters that [post] does not continue, and the pattern
    matches at no earlier position. *)
Definition captures (lit s id : string) : Prop :=
  exists pre post : string,
    s = (pre ++ lit ++ id ++ post)%string
    /\ id <> EmptyString
    /\ all_chars Re.is_id_char id = true
    /\ starts_with_char Re.is_id_char post = false
    /\ forall (pre' : string) (c : ascii) (rest : string),
         s = (pre' ++ lit ++ String c rest)%string ->
         Re.is_id_char c = true ->
         String.length pre <= String.length pre'.

Definition no_match (lit s : string) : Prop := forall id : string, ~ captures lit s id.

Fixpoint last_char (s : string) : option ascii :=
  match s with
  | EmptyString => None
  | String c EmptyString => Some c
  | String _ s' => last_char s'
  end.

(** *** The Normalizer, column by column *)

(** What a step leaves when it returns, [default] when it raises. *)
Definition value_or {A : Type} (default : A) (m : result A) : A :=
  match m with
  | Ok a => a
  | Raised _ => default
  end.

(** What the two loops leave in a column. *)
Definition coerced (P : pandas) (c : column) : column :=
  let c1 := value_or c (numeric_step c) in
  value_or c1 (datetime_step P c1).

(** The data of that column, from its name and its data. *)
Definition coerced_series (P : pandas) (name : string) (s : series) : series :=
  let s1 := to_numeric (is_integer_dtype s) s in
  if is_datetime_name name then
    match to_datetime P s1 with
    | Ok s2 => s2
    | Raised _ => s1
    end
  else s1.



(** *** Sample inputs *)

(** A world fixed by four answers: what [gdown.download] returns or
    raises, the bytes it leaves in the output file (if any), what
    [requests.get] answers, and what the readers make of the file. *)
Definition sample_world (gdown : result (option string)) (left_behind : option bytes)
  (http : result (Z * bytes)) (parsed : result DataFrame) : world :=
  {| gdown_download := fun _ output fs =>
       (gdown, match left_behind with
               | Some content => write_file output content fs
               | None => fs
               end);
     requests_get := fun _ => http;
     open_wb := fun _ _ => Ok tt;
     read_csv := fun _ _ => parsed;
     read_parquet := fun _ _ => parsed;
     read_excel := fun _ _ => parsed |}.

Definition sample_trips : DataFrame :=
  {| index := [0; 1; 2; 3; 4]%Z;
     columns :=
       [ {| col_name := "VendorID"; col_data := IntSeries I64 [1; 2; 1; 2; 1]%Z |};
         {| col_name := "tpep_pickup_datetime";
            col_data := ObjectSeries [Some "2023-01-01 00:10:00"; Some "2023-01-01 00:20:00";
                                      Some "2023-01-01 00:10:00"; Some "n/a";
                                      Some "2023-01-01 00:30:00"] |};
         {| col_name := "fare_amount";
            col_data := FloatSeries [Some 1050; Some 700; Some 1050; None; Some 2500]%Z |};
         {| col_name := "passenger_count"; col_data := IntSeries I64 [1; 300; 1; 2; 70000]%Z |} ] |}.

(** A stand-in for the timestamp parser: text of the shape
    [2023-01-01 00:MM:00] parses to its minute, integers are nanoseconds,
    anything else is unparseable, and the text [raise] makes the call
    raise. *)
Definition sample_pandas : pandas :=
  {| parse_timestamp := fun x =>
       match x with
       | IntScalar z => Timestamp z
       | FloatScalar _ => Unparseable
       | TextScalar s =>
           if String.eqb s "raise" then Fails (Exception "mixed input")
           else if String.prefix "2023-01-01 00:" s then
             match String.get 14 s, String.get 15 s with
             | Some a, Some b =>
                 Timestamp (Z.of_N (N_of_ascii a - 48) * 10 + Z.of_N (N_of_ascii b - 48))
             | _, _ => Unparseable
             end
           else Unparseable
       end |}.

(** *** The dashboard ([app.py]): data dictionary mappings *)

Definition PAYMENT_TYPE_MAP : list (Z * string) :=
  [ (0, "0 - Flex Fare"); (1, "1 - Credit Card"); (2, "2 - Cash");
    (3, "3 - No Charge"); (4, "4 - Dispute"); (5, "5 - Unknown");
    (6, "6 - Voided Trip") ]%Z.

Definition VENDOR_ID_MAP : list (Z * string) :=
  [ (1, "1 - Creative Mobile Technologies"); (2, "2 - Curb Mobility");
    (6, "6 - Myle Technologies"); (7, "7 - Helix") ]%Z.

Definition RATECODE_ID_MAP : list (Z * string) :=
  [ (1, "1 - Standard Rate"); (2, "2 - JFK"); (3, "3 - Newark");
    (4, "4 - Nassau/Westchester"); (5, "5 - Negotiated Fare");
    (6, "6 - Group Ride"); (99, "99 - Null/Unknown") ]%Z.

(** Lookup in a dict literal with distinct keys. *)
Fixpoint dict_get (d : list (Z * string)) (k : Z) : option string :=
  match d with
  | [] => None
  | (k', v) :: d' => if (k' =? k)%Z then Some v else dict_get d' k
  end.

(** [str(z)] on an integer. *)
Definition str_of_int (z : Z) : string := NilZero.string_of_int (Z.to_int z).

(** What [s.map(d).fillna(s.astype(str))] makes of a column that is not
    of integer dtype is left to the library. *)
Record mapper : Type := Mapper { map_other : list (Z * string) -> series -> series }.

(** [s.map(d).fillna(s.astype(str))]: on an integer column every code in
    the dict becomes its label and every other code its decimal text; the
    result is an object column. The row labels are distinct, as they are in
    the dashboard, so [fillna] fills each row from the same row. *)
Definition map_fillna (M : mapper) (d : list (Z * string)) (s : series) : series :=
  match s with
  | IntSeries _ vs =>
      ObjectSeries (map (fun z => Some match dict_get d z with
                                       | Some label => label
                                       | None => str_of_int z
                                       end) vs)
  | _ => map_other M d s
  end.

(** [name in df.columns]. *)
Definition has_column (name : string) (df : DataFrame) : bool :=
  existsb (fun c => String.eqb (col_name c) name) (columns df).

(** [df[name] = f(df[name])]. *)
Definition update_column (name : string) (f : series -> series) (df : DataFrame)
  : DataFrame :=
  {| index := index df;
     columns := map (fun c => if String.eqb (col_name c) name
                              then assign c (f (col_data c)) else c)
                    (columns df) |}.

(** Lines 280-296 of [app.py]. *)
Definition apply_data_mappings (M : mapper) (df : DataFrame) : DataFrame :=
  let df_mapped := df in
  let df_mapped :=
    if has_column "payment_type" df_mapped
    then update_column "payment_type" (map_fillna M PAYMENT_TYPE_MAP) df_mapped
    else df_mapped in
  let df_mapped :=
    if has_column "VendorID" df_mapped
    then update_column "VendorID" (map_fillna M VENDOR_ID_MAP) df_mapped
    else df_mapped in
  let df_mapped :=
    if has_column "RatecodeID" df_mapped
    then update_column "RatecodeID" (map_fillna M RATECODE_ID_MAP) df_mapped
    else df_mapped in
  df_mapped.

(** *** The dashboard ([app.py]): loading one file *)

(** The formats the sidebar offers (lines 162-166). *)
Definition file_formats : list string := ["csv"; "parquet"; "xlsx"].

(** Line 300. *)
Definition output_file (file_format : string) : string :=
  ("nyc_taxi_data." ++ file_format)%string.

(** Lines 300-305, the body of the branch taken when the button is
    pressed and the URL is not empty: the frame kept in the session, the
    disk, the trace of the Fetcher and the notes of the Normalizer. *)
Definition load_single_file (W : world) (P : pandas) (M : mapper)
  (gdrive_url file_format : string) (fs : filesystem)
  (session_df : option DataFrame)
  : result (option DataFrame * filesystem * list event * list note) :=
  let r := load_data_from_gdrive W gdrive_url (output_file file_format) fs in
  match returned r with
  | Some df =>
      prepared <- prepare_taxi_data P df ;;
      Ok (Some (apply_data_mappings M (fst prepared)), disk r, trace r, snd prepared)
  | None => Ok (session_df, disk r, trace r, [])
  end.

(** *** The dashboard ([app.py]): reading uploaded files *)

Record uploaded_file : Type := Upload { upload_name : string; upload_body : bytes }.

(** [pd.read_csv] and [pd.read_parquet] on an uploaded file. *)
Record upload_readers : Type := UploadReaders {
  read_csv_buffer : uploaded_file -> result DataFrame;
  read_parquet_buffer : uploaded_file -> result DataFrame
}.

(** What the loop shows: the status text, the warning for a skipped file,
    the line written for a file that was read, the progress bar. *)
Inductive upload_event : Type :=
| StatusReading (name : string) (position total : nat)
| WarnSkipping (name : string)
| WroteRows (name : string) (n_rows : nat)
| Progress (done total : nat).

(** Lines 341-346: the reader for a file name, [None] for the [else]
    branch. *)
Definition upload_reader (U : upload_readers) (f : uploaded_file)
  : option (result DataFrame) :=
  if ends_with (upload_name f) ".csv" then Some (read_csv_buffer U f)
  else if ends_with (upload_name f) ".parquet" then Some (read_parquet_buffer U f)
  else None.

(** The loop of lines 337-352 from its [i]-th iteration on, [dfs] being
    the frames read so far: what is shown, and the list [dfs] at the end of
    the loop or the exception that leaves it. *)
Fixpoint read_uploaded_files (U : upload_readers) (total i : nat)
  (files : list uploaded_file) (dfs : list DataFrame)
  : list upload_event * result (list DataFrame) :=
  match files with
  | [] => ([], Ok dfs)
  | f :: files' =>
      let status := StatusReading (upload_name f) (i + 1) total in
      match upload_reader U f with
      | None =>
          let (shown, r) := read_uploaded_files U total (S i) files' dfs in
          (status :: WarnSkipping (upload_name f) :: shown, r)
      | Some (Raised e) => ([status], Raised e)
      | Some (Ok df_temp) =>
          let (shown, r) :=
            read_uploaded_files U total (S i) files' (dfs ++ [df_temp]) in
          (status :: WroteRows (upload_name f) (len df_temp)
                  :: Progress (i + 1) total :: shown, r)
      end
  end.

(** The names in the warnings shown. *)
Definition skipped_names (shown : list upload_event) : list string :=
  flat_map (fun e => match e with WarnSkipping name => [name] | _ => [] end) shown.

(** The names in the status texts shown: the files the loop came to. *)
Definition visited_names (shown : list upload_event) : list string :=
  flat_map (fun e => match e with StatusReading name _ _ => [name] | _ => [] end) shown.

(** Readers that take the frame from a table of file names. *)
Definition sample_readers (table : list (string * result DataFrame)) : upload_readers :=
  let read f :=
    match find (fun entry => String.eqb (fst entry) (upload_name f)) table with
    | Some entry => snd entry
    | None => Raised (Exception "cannot read")
    end in
  {| read_csv_buffer := read; read_parquet_buffer := read |}.

(** A mapper that leaves columns of other dtypes as they are. *)
Definition sample_mapper : mapper := {| map_other := fun _ s => s |}.

(** ** Part II. Properties *)

(** *** Strings and the pattern matcher *)

Lemma string_app_assoc (a b c : string) :
  ((a ++ b) ++ c)%string = (a ++ (b ++ c))%string.
Proof. induction a as [|x a IH]; simpl; [reflexivity | now rewrite IH]. Qed.

Lemma strip_prefix_app (lit rest : string) :
  Re.strip_prefix lit (lit ++ rest)%string = Some rest.
Proof.
  induction lit as [|a lit IH]; simpl; [reflexivity|].
  now rewrite Ascii.eqb_refl.
Qed.

Lemma strip_prefix_inv (lit s rest : string) :
  Re.strip_prefix lit s = Some rest -> s = (lit ++ rest)%string.
Proof.
  revert s; induction lit as [|a lit IH]; simpl; intros s H.
  - now inversion H.
  - destruct s as [|b s]; [discriminate|].
    destruct (Ascii.eqb_spec a b) as [->|]; [|discriminate].
    now rewrite (IH _ H).
Qed.

Lemma take_while_split (p : ascii -> bool) (s : string) :
  exists post, s = (Re.take_while p s ++ post)%string
               /\ starts_with_char p post = false.
Proof.
  induction s as [|c s [post [E H]]]; simpl.
  - exists EmptyString; auto.
  - destruct (p c) eqn:Hc.
    + exists post; simpl; split; [now rewrite <- E | exact H].
    + exists (String c s); simpl; auto.
Qed.

Lemma take_while_all (p : ascii -> bool) (s : string) :
  all_chars p (Re.take_while p s) = true.
Proof.
  induction s as [|c s IH]; simpl; [reflexivity|].
  destruct (p c) eqn:Hc; simpl; [now rewrite Hc | reflexivity].
Qed.

Lemma take_while_app (p : ascii -> bool) (id post : string) :
  all_chars p id = true -> starts_with_char p post = false ->
  Re.take_while p (id ++ post)%string = id.
Proof.
  induction id as [|c id IH]; simpl; intros Hid Hpost.
  - destruct post as [|d post]; simpl in *; [reflexivity | now rewrite Hpost].
  - apply andb_true_iff in Hid as [Hc Hid]. rewrite Hc. now rewrite IH.
Qed.

Lemma match_here_iff (lit s id : string) :
  Re.match_here lit s = Some id <->
  exists post, s = (lit ++ id ++ post)%string
               /\ id <> EmptyString
               /\ all_chars Re.is_id_char id = true
               /\ starts_with_char Re.is_id_char post = false.
Proof.
  unfold Re.match_here; split.
  - destruct (Re.strip_prefix lit s) as [rest|] eqn:E; [|discriminate].
    apply strip_prefix_inv in E.
    destruct (take_while_split Re.is_id_char rest) as [post [Er Hp]].
    pose proof (take_while_all Re.is_id_char rest) as Hall.
    destruct (Re.take_while Re.is_id_char rest) as [|c t] eqn:Et; [discriminate|].
    intros H; inversion H; subst id.
    exists post; repeat split; auto; [now rewrite <- Er | discriminate].
  - intros [post [-> [Hne [Hall Hp]]]].
    rewrite strip_prefix_app, take_while_app by assumption.
    destruct id; [contradiction | reflexivity].
Qed.

Lemma match_here_some (lit : string) (c : ascii) (rest : string) :
  Re.is_id_char c = true ->
  exists id, Re.match_here lit (lit ++ String c rest)%string = Some id.
Proof.
  intros Hc; unfold Re.match_here.
  rewrite strip_prefix_app; simpl; rewrite Hc; eauto.
Qed.

Lemma match_here_head (lit s id : string) :
  Re.match_here lit s = Some id ->
  exists c rest, s = (lit ++ String c rest)%string /\ Re.is_id_char c = true.
Proof.
  intros H; apply match_here_iff in H as [post [-> [Hne [Hall _]]]].
  destruct id as [|c id]; [contradiction|].
  simpl in Hall; apply andb_true_iff in Hall as [Hc _].
  exists c, (id ++ post)%string; auto.
Qed.

Lemma search_unfold (lit s : string) :
  Re.search lit s =
  match Re.match_here lit s with
  | Some id => Some id
  | None => match s with
            | EmptyString => None
            | String _ s' => Re.search lit s'
            end
  end.
Proof. destruct s; reflexivity. Qed.

(** The matcher finds exactly what the pattern captures. *)
Lemma search_captures (lit s id : string) :
  Re.search lit s = Some id <-> captures lit s id.
Proof.
  split.
  - revert id; induction s as [|a s IH]; intros id; rewrite search_unfold.
    + destruct (Re.match_here lit EmptyString) as [id'|] eqn:E; [|discriminate].
      intros H; inversion H; subst id'.
      apply match_here_iff in E as [post [E [Hne [Hall Hp]]]].
      exists EmptyString, post; repeat split; auto; simpl; intros; lia.
    + destruct (Re.match_here lit (String a s)) as [id'|] eqn:E.
      * intros H; inversion H; subst id'.
        apply match_here_iff in E as [post [E [Hne [Hall Hp]]]].
        exists EmptyString, post; repeat split; auto; simpl; intros; lia.
      * intros H; apply IH in H as [pre [post [Es [Hne [Hall [Hp Hleft]]]]]].
        exists (String a pre), post; repeat split; auto.
        { simpl; now rewrite <- Es. }
        intros pre' c rest Es' Hc.
        destruct pre' as [|b pre'].
        { simpl in Es'. destruct (match_here_some lit c rest Hc) as [x Hx].
          rewrite <- Es' in Hx; congruence. }
        simpl in Es'; inversion Es'; subst b.
        simpl; apply le_n_S; eapply Hleft; eauto.
  - intros [pre [post [Es [Hne [Hall [Hp Hleft]]]]]].
    revert s Es Hleft; induction pre as [|a pre IH]; intros s Es Hleft.
    + rewrite search_unfold.
      assert (E : Re.match_here lit s = Some id)
        by (apply match_here_iff; exists post; auto).
      now rewrite E.
    + rewrite search_unfold.
      destruct (Re.match_here lit s) as [id'|] eqn:E.
      * apply match_here_head in E as [c [rest [E Hc]]].
        specialize (Hleft EmptyString c rest E Hc); simpl in Hleft; lia.
      * subst s; simpl. apply IH; [reflexivity|].
        intros pre' c rest Es' Hc.
        apply le_S_n.
        apply (Hleft (String a pre') c rest); [simpl; now rewrite Es' | exact Hc].
Qed.

Lemma search_none (lit s : string) :
  Re.search lit s = None <-> no_match lit s.
Proof.
  split.
  - intros H id Hc; apply search_captures in Hc; congruence.
  - intros H; destruct (Re.search lit s) as [id|] eqn:E; [|reflexivity].
    apply search_captures in E; now apply H in E.
Qed.

Lemma search_nonempty (lit s : string) : Re.search lit s <> Some EmptyString.
Proof.
  intros H; apply search_captures in H as [pre [post [_ [Hne _]]]]; now apply Hne.
Qed.

Lemma search_complete (lit pre : string) (c : ascii) (rest : string) :
  Re.is_id_char c = true ->
  exists id, Re.search lit (pre ++ lit ++ String c rest)%string = Some id.
Proof.
  intros Hc; induction pre as [|a pre [id IH]]; rewrite search_unfold.
  - destruct (match_here_some lit c rest Hc) as [id E].
    simpl; rewrite E; eauto.
  - destruct (Re.match_here lit _) as [id'|]; [eauto|].
    simpl; rewrite IH; eauto.
Qed.

(** *** ResourceId extraction *)

Lemma extract_file_id_eq (url : string) :
  extract_file_id url =
  match Re.search pattern1 url with
  | Some g => Some g
  | None =>
      match Re.search pattern2 url with
      | Some g => Some g
      | None => Re.search pattern3 url
      end
  end.
Proof.
  unfold extract_file_id.
  destruct (Re.search pattern1 url) as [g1|] eqn:E1.
  - destruct g1; [now apply search_nonempty in E1 | reflexivity].
  - simpl. destruct (Re.search pattern2 url) as [g2|] eqn:E2.
    + destruct g2; [now apply search_nonempty in E2 | reflexivity].
    + simpl. now destruct (Re.search pattern3 url).
Qed.

Lemma extract_file_id_two_patterns_eq (url : string) :
  extract_file_id_two_patterns url =
  match Re.search pattern1 url with
  | Some g => Some g
  | None => Re.search pattern2 url
  end.
Proof.
  unfold extract_file_id_two_patterns.
  destruct (Re.search pattern1 url) as [g1|] eqn:E1.
  - destruct g1; [now apply search_nonempty in E1 | reflexivity].
  - simpl. now destruct (Re.search pattern2 url).
Qed.

Lemma pattern3_implies_pattern2 (url id : string) :
  Re.search pattern3 url = Some id -> exists id', Re.search pattern2 url = Some id'.
Proof.
  intros H; apply search_captures in H as [pre [post [E [Hne [Hall _]]]]].
  destruct id as [|c id]; [contradiction|].
  simpl in Hall; apply andb_true_iff in Hall as [Hc _].
  subst url.
  replace (pre ++ pattern3 ++ String c id ++ post)%string
    with ((pre ++ "/open?") ++ pattern2 ++ String c (id ++ post))%string
    by (rewrite string_app_assoc; reflexivity).
  now apply search_complete.
Qed.

(** C2. The three patterns are tried in the order [/file/d/ID], [id=ID],
    [/open?id=ID]; the extraction yields exactly the identifier captured by
    the first pattern that matches the reference, and the sharing link
    [https://drive.example.com/file/d/ABC123/view?usp=sharing] yields
    [ABC123]. *)
Theorem extract_first_match_wins :
  (forall url id : string,
     extract_file_id url = Some id <->
     captures pattern1 url id
     \/ (no_match pattern1 url /\ captures pattern2 url id)
     \/ (no_match pattern1 url /\ no_match pattern2 url /\ captures pattern3 url id))
  /\ extract_file_id "https://drive.example.com/file/d/ABC123/view?usp=sharing"
     = Some "ABC123".
Proof.
  split; [|reflexivity].
  intros url id; rewrite extract_file_id_eq.
  rewrite <- !search_captures, <- !search_none.
  destruct (Re.search pattern1 url) as [g1|];
    [|destruct (Re.search pattern2 url) as [g2|]].
  - split; [auto|].
    intros [H|[[H _]|[H _]]]; [exact H | discriminate | discriminate].
  - split; [auto|].
    intros [H|[[_ H]|[_ [H _]]]]; [discriminate | exact H | discriminate].
  - split; [auto 6|].
    intros [H|[[_ H]|[_ [_ H]]]]; [discriminate | discriminate | exact H].
Qed.

(** C10. Whenever the third pattern matches a reference the second one
    matches it too, and it is tried first: the third block never decides
    the result, and extraction with the three patterns equals extraction
    with the first two. *)
Theorem third_pattern_never_decides :
  (forall url id : string,
     captures pattern3 url id -> exists id', captures pattern2 url id')
  /\ (forall url : string,
        Re.search pattern1 url = None -> Re.search pattern2 url = None ->
        Re.search pattern3 url = None)
  /\ (forall url : string, extract_file_id url = extract_file_id_two_patterns url).
Proof.
  assert (Hnone : forall url, Re.search pattern2 url = None ->
                              Re.search pattern3 url = None).
  { intros url H2; destruct (Re.search pattern3 url) as [id|] eqn:E3; [|reflexivity].
    destruct (pattern3_implies_pattern2 _ _ E3) as [id' E]; congruence. }
  repeat split.
  - intros url id H; apply search_captures in H.
    destruct (pattern3_implies_pattern2 _ _ H) as [id' E].
    exists id'; now apply search_captures.
  - intros url _ H2; now apply Hnone.
  - intros url; rewrite extract_file_id_eq, extract_file_id_two_patterns_eq.
    destruct (Re.search pattern1 url); [reflexivity|].
    destruct (Re.search pattern2 url) eqn:E2; [reflexivity|].
    now apply Hnone.
Qed.

(** *** The Fetcher *)

Lemma reported_app (t1 t2 : list event) :
  reported (t1 ++ t2) = reported t1 ++ reported t2.
Proof. apply flat_map_app. Qed.

Lemma download_no_parse (W : world) (url out : string) (fs : filesystem) :
  filter is_parse (snd (download W url out fs)) = [].
Proof.
  unfold download.
  destruct (gdown_download W url out fs) as [[res|[msg|msg]] fs1]; simpl; auto.
  destruct (requests_get W url) as [[status content]|e]; simpl; auto.
  destruct (status =? 200)%Z; simpl; auto.
  destruct (open_wb W out fs1); simpl; auto.
Qed.

Lemma download_reported (W : world) (url out : string) (fs : filesystem) :
  reported (snd (download W url out fs)) =
  match fst (fst (download W url out fs)) with
  | ReturnedNone => [DownloadError]
  | Result _ => []
  end.
Proof.
  unfold download.
  destruct (gdown_download W url out fs) as [[res|[msg|msg]] fs1]; simpl; auto.
  destruct (requests_get W url) as [[status content]|e]; simpl; auto.
  destruct (status =? 200)%Z; simpl; auto.
  destruct (open_wb W out fs1); simpl; auto.
Qed.

Lemma path_exists_write (path : string) (content : bytes) (fs : filesystem) :
  path_exists path (write_file path content fs) = true.
Proof. unfold path_exists, write_file; simpl. now rewrite String.eqb_refl. Qed.

Lemma read_file_write (path : string) (content : bytes) (fs : filesystem) :
  read_file path (write_file path content fs) = Some content.
Proof. unfold read_file, write_file; simpl. now rewrite String.eqb_refl. Qed.

(** C3. A reference that none of the three patterns matches makes the
    Fetcher return the InvalidReference failure: no network call is made,
    no file is written, the disk is as it was. *)
Theorem invalid_reference_no_download
  (W : world) (gdrive_url output_filename : string) (fs : filesystem) :
  Re.search pattern1 gdrive_url = None ->
  Re.search pattern2 gdrive_url = None ->
  Re.search pattern3 gdrive_url = None ->
  let r := load_data_from_gdrive W gdrive_url output_filename fs in
  load_result r = Failed [InvalidReference]
  /\ filter is_network_call (trace r) = []
  /\ filter is_file_write (trace r) = []
  /\ disk r = fs.
Proof.
  intros H1 H2 H3. unfold load_data_from_gdrive.
  rewrite extract_file_id_eq, H1, H2, H3. simpl. auto.
Qed.

Lemma invalid_reference_no_download_witness :
  let r := load_data_from_gdrive
             (sample_world (Ok (Some "nyc_taxi_data.csv")) (Some "a,b") (Ok (200%Z, "a,b"))
                           (Ok sample_trips))
             "not-a-url" "nyc_taxi_data.csv" [] in
  load_result r = Failed [InvalidReference]
  /\ filter is_network_call (trace r) = []
  /\ filter is_file_write (trace r) = []
  /\ disk r = [].
Proof.
  apply (invalid_reference_no_download
           (sample_world (Ok (Some "nyc_taxi_data.csv")) (Some "a,b") (Ok (200%Z, "a,b"))
                         (Ok sample_trips))
           "not-a-url" "nyc_taxi_data.csv" []); reflexivity.
Defined.

Lemma ends_with_unfold (s suffix : string) :
  ends_with s suffix =
  if String.eqb s suffix then true
  else match s with
       | EmptyString => false
       | String _ s' => ends_with s' suffix
       end.
Proof. destruct s; reflexivity. Qed.

Lemma ends_with_iff (s suffix : string) :
  ends_with s suffix = true <-> exists pre, s = (pre ++ suffix)%string.
Proof.
  split.
  - induction s as [|a s IH]; rewrite ends_with_unfold.
    + destruct (String.eqb_spec EmptyString suffix) as [<-|]; [|discriminate].
      now exists EmptyString.
    + destruct (String.eqb_spec (String a s) suffix) as [<-|].
      * now exists EmptyString.
      * intros H; destruct (IH H) as [pre ->]. now exists (String a pre).
  - intros [pre ->]; induction pre as [|a pre IH].
    + rewrite ends_with_unfold; simpl; now rewrite String.eqb_refl.
    + simpl append; rewrite ends_with_unfold; cbv iota; rewrite IH.
      now destruct (String.eqb _ _).
Qed.

Lemma ends_with_last (s suffix : string) :
  suffix <> EmptyString -> ends_with s suffix = true ->
  last_char s = last_char suffix.
Proof.
  intros Hne; induction s as [|a s IH]; rewrite ends_with_unfold.
  - destruct (String.eqb_spec EmptyString suffix) as [<-|]; [reflexivity | discriminate].
  - destruct (String.eqb_spec (String a s) suffix) as [<-|]; [reflexivity|].
    intros H. rewrite <- (IH H).
    destruct s; [|reflexivity].
    rewrite ends_with_unfold in H.
    destruct (String.eqb_spec EmptyString suffix); [congruence | discriminate].
Qed.

Lemma ends_with_apart (s a b : string) :
  a <> EmptyString -> b <> EmptyString -> last_char a <> last_char b ->
  ends_with s a = true -> ends_with s b = false.
Proof.
  intros Ha Hb Hab H.
  destruct (ends_with s b) eqn:E; [|reflexivity].
  apply ends_with_last in H, E; congruence.
Qed.

Lemma choose_reader_parquet (output_filename : string) :
  ends_with output_filename ".parquet" = true ->
  choose_reader output_filename = Some ReadParquet.
Proof.
  intros H; unfold choose_reader.
  rewrite (ends_with_apart output_filename ".parquet" ".csv"), H;
    auto; discriminate.
Qed.

Lemma choose_reader_excel (output_filename : string) :
  ends_with output_filename ".xlsx" = true \/ ends_with output_filename ".xls" = true ->
  choose_reader output_filename = Some ReadExcel.
Proof.
  intros H; unfold choose_reader.
  assert (Hc : ends_with output_filename ".csv" = false)
    by (destruct H as [H|H];
        [apply (ends_with_apart _ ".xlsx") | apply (ends_with_apart _ ".xls")];
        auto; discriminate).
  assert (Hp : ends_with output_filename ".parquet" = false)
    by (destruct H as [H|H];
        [apply (ends_with_apart _ ".xlsx") | apply (ends_with_apart _ ".xls")];
        auto; discriminate).
  rewrite Hc, Hp.
  destruct H as [-> | ->]; [reflexivity | now rewrite orb_true_r].
Qed.

(** The function once the download block has left a result and the file
    is there. *)
Lemma load_after_download (W : world) (gdrive_url output_filename : string)
  (fs fs1 : filesystem) (p : string) (t1 : list event) :
  is_falsy (extract_file_id gdrive_url) = false ->
  download W (download_url_of (extract_file_id gdrive_url)) output_filename fs
  = (Result (Some p), fs1, t1) ->
  path_exists output_filename fs1 = true ->
  load_data_from_gdrive W gdrive_url output_filename fs =
  let t := ([StInfo (MsgFileIdDetected (format_value (extract_file_id gdrive_url)));
             StSpinner MsgDownloading] ++ t1)
           ++ [StInfo (MsgLoadingFile output_filename)] in
  match choose_reader output_filename with
  | None => {| returned := None; disk := fs1;
               trace := t ++ [StError MsgUnsupportedFormat] |}
  | Some r =>
      match call_reader W r output_filename fs1 with
      | Ok df =>
          {| returned := Some df; disk := fs1;
             trace := (t ++ [Parse r output_filename])
                      ++ [StSuccess (MsgLoaded (len df) (length (columns df)))] |}
      | Raised e =>
          {| returned := None; disk := fs1;
             trace := (t ++ [Parse r output_filename])
                      ++ StError (MsgLoadError e) :: troubleshooting |}
      end
  end.
Proof.
  intros Hid Hd Hex. unfold load_data_from_gdrive.
  rewrite Hid, Hd, Hex. reflexivity.
Qed.

Lemma download_result_facts (W : world) (url out : string) (fs fs1 : filesystem)
  (res : option string) (t1 : list event) :
  download W url out fs = (Result res, fs1, t1) ->
  filter is_parse t1 = [] /\ reported t1 = [].
Proof.
  intros H.
  pose proof (download_no_parse W url out fs) as Hp.
  pose proof (download_reported W url out fs) as Hr.
  rewrite H in Hp, Hr. auto.
Qed.

Lemma parsed_by_reader (W : world) (gdrive_url output_filename : string)
  (fs fs1 : filesystem) (p : string) (t1 : list event) (r : reader) :
  is_falsy (extract_file_id gdrive_url) = false ->
  download W (download_url_of (extract_file_id gdrive_url)) output_filename fs
  = (Result (Some p), fs1, t1) ->
  path_exists output_filename fs1 = true ->
  choose_reader output_filename = Some r ->
  let run := load_data_from_gdrive W gdrive_url output_filename fs in
  filter is_parse (trace run) = [Parse r output_filename]
  /\ load_result run = match call_reader W r output_filename fs1 with
                       | Ok df => Loaded df
                       | Raised _ => Failed [ParseError]
                       end.
Proof.
  intros Hid Hd Hex Hr.
  destruct (download_result_facts _ _ _ _ _ _ _ Hd) as [Hp Hrep].
  cbv zeta. rewrite (load_after_download _ _ _ _ _ _ _ Hid Hd Hex), Hr.
  cbv zeta.
  destruct (call_reader W r output_filename fs1) as [df|e]; unfold load_result; simpl;
    rewrite ?filter_app, ?reported_app, ?Hp, ?Hrep; simpl;
    rewrite ?filter_app, ?reported_app, ?Hp, ?Hrep; simpl; auto.
Qed.

(** C4. After a successful download the reader is chosen by the file
    name alone: [.csv] is read as delimited text, [.parquet] as a columnar
    file, [.xlsx] and [.xls] as a spreadsheet; any other name gives
    Failed(UnsupportedFormat) and no reader is called. *)
Theorem dispatch_on_extension (W : world) (gdrive_url output_filename : string)
  (fs fs1 : filesystem) (p : string) (t1 : list event) :
  is_falsy (extract_file_id gdrive_url) = false ->
  download W (download_url_of (extract_file_id gdrive_url)) output_filename fs
  = (Result (Some p), fs1, t1) ->
  path_exists output_filename fs1 = true ->
  let run := load_data_from_gdrive W gdrive_url output_filename fs in
  let parsed_by (r : reader) (read : string -> filesystem -> result DataFrame) :=
    filter is_parse (trace run) = [Parse r output_filename]
    /\ load_result run = match read output_filename fs1 with
                         | Ok df => Loaded df
                         | Raised _ => Failed [ParseError]
                         end in
  (ends_with output_filename ".csv" = true -> parsed_by ReadCsv (read_csv W))
  /\ (ends_with output_filename ".parquet" = true ->
      parsed_by ReadParquet (read_parquet W))
  /\ (ends_with output_filename ".xlsx" = true \/ ends_with output_filename ".xls" = true ->
      parsed_by ReadExcel (read_excel W))
  /\ (ends_with output_filename ".csv" = false ->
      ends_with output_filename ".parquet" = false ->
      ends_with output_filename ".xlsx" = false ->
      ends_with output_filename ".xls" = false ->
      load_result run = Failed [UnsupportedFormat]
      /\ filter is_parse (trace run) = []).
Proof.
  intros Hid Hd Hex; cbv zeta.
  repeat split.
  - apply (parsed_by_reader _ _ _ _ _ _ _ ReadCsv Hid Hd Hex).
    unfold choose_reader; now rewrite H.
  - apply (parsed_by_reader _ _ _ _ _ _ _ ReadCsv Hid Hd Hex).
    unfold choose_reader; now rewrite H.
  - apply (parsed_by_reader _ _ _ _ _ _ _ ReadParquet Hid Hd Hex).
    now apply choose_reader_parquet.
  - apply (parsed_by_reader _ _ _ _ _ _ _ ReadParquet Hid Hd Hex).
    now apply choose_reader_parquet.
  - apply (parsed_by_reader _ _ _ _ _ _ _ ReadExcel Hid Hd Hex).
    now apply choose_reader_excel.
  - apply (parsed_by_reader _ _ _ _ _ _ _ ReadExcel Hid Hd Hex).
    now apply choose_reader_excel.
  - destruct (download_result_facts _ _ _ _ _ _ _ Hd) as [Hp Hrep].
    rewrite (load_after_download _ _ _ _ _ _ _ Hid Hd Hex).
    unfold choose_reader; rewrite H, H0, H1, H2; cbv zeta; unfold load_result; simpl.
    rewrite !reported_app, Hrep; reflexivity.
  - destruct (download_result_facts _ _ _ _ _ _ _ Hd) as [Hp Hrep].
    rewrite (load_after_download _ _ _ _ _ _ _ Hid Hd Hex).
    unfold choose_reader; rewrite H, H0, H1, H2; cbv zeta; simpl.
    rewrite !filter_app, Hp; reflexivity.
Qed.

Lemma dispatch_on_extension_witness :
  let W := sample_world (Ok (Some "nyc_taxi_data.parquet")) (Some "PAR1")
                        (Ok (200%Z, "")) (Ok sample_trips) in
  let run := load_data_from_gdrive W "https://drive.example.com/uc?id=XYZ789"
                                   "nyc_taxi_data.parquet" [] in
  filter is_parse (trace run) = [Parse ReadParquet "nyc_taxi_data.parquet"]
  /\ load_result run = Loaded sample_trips.
Proof.
  intros W run.
  destruct (dispatch_on_extension W "https://drive.example.com/uc?id=XYZ789"
              "nyc_taxi_data.parquet" [] [("nyc_taxi_data.parquet", "PAR1")]
              "nyc_taxi_data.parquet"
              [GdownDownload "https://drive.google.com/uc?id=XYZ789" "nyc_taxi_data.parquet"])
    as [_ [H _]]; [reflexivity | reflexivity | reflexivity |].
  exact (H eq_refl).
Defined.

(** C8. When [gdown.download] raises the AttributeError the Fetcher makes
    one plain GET of the download URL and nothing more: with status 200
    the body is written as it is to the output file and loading goes on
    with that file; any other status, a raising GET or a raising write give
    Failed(DownloadError) and write nothing. *)
Theorem fallback_transport (W : world) (gdrive_url output_filename : string)
  (fs fs1 : filesystem) (msg : string) :
  is_falsy (extract_file_id gdrive_url) = false ->
  gdown_download W (download_url_of (extract_file_id gdrive_url)) output_filename fs
  = (Raised (AttributeError msg), fs1) ->
  let url := download_url_of (extract_file_id gdrive_url) in
  let r := load_data_from_gdrive W gdrive_url output_filename fs in
  filter is_network_call (trace r) = [GdownDownload url output_filename; RequestsGet url]
  /\ (forall content,
        requests_get W url = Ok (200%Z, content) ->
        open_wb W output_filename fs1 = Ok tt ->
        disk r = write_file output_filename content fs1
        /\ read_file output_filename (disk r) = Some content
        /\ filter is_file_write (trace r) = [FileWrite output_filename content]
        /\ load_result r =
           match choose_reader output_filename with
           | None => Failed [UnsupportedFormat]
           | Some rd =>
               match call_reader W rd output_filename (disk r) with
               | Ok df => Loaded df
               | Raised _ => Failed [ParseError]
               end
           end)
  /\ (forall status content,
        requests_get W url = Ok (status, content) -> status <> 200%Z ->
        load_result r = Failed [DownloadError]
        /\ filter is_file_write (trace r) = [] /\ disk r = fs1)
  /\ (forall e,
        requests_get W url = Raised e ->
        load_result r = Failed [DownloadError]
        /\ filter is_file_write (trace r) = [] /\ disk r = fs1)
  /\ (forall content e,
        requests_get W url = Ok (200%Z, content) ->
        open_wb W output_filename fs1 = Raised e ->
        load_result r = Failed [DownloadError]
        /\ filter is_file_write (trace r) = [] /\ disk r = fs1).
Proof.
  intros Hid Hg url r.
  assert (Hr : r = load_data_from_gdrive W gdrive_url output_filename fs) by reflexivity.
  clearbody r.
  unfold load_data_from_gdrive, download in Hr.
  rewrite Hid in Hr. fold url in Hr, Hg. rewrite Hg in Hr.
  destruct (requests_get W url) as [[status content]|e] eqn:Hget.
  - destruct (Z.eqb_spec status 200) as [->|Hs].
    + destruct (open_wb W output_filename fs1) as [[]|e] eqn:Hopen.
      * rewrite path_exists_write in Hr. cbn [orb negb] in Hr.
        split; [|split; [|repeat split; intros; try congruence]].
        { destruct (choose_reader output_filename) as [rd|];
            [destruct (call_reader W rd output_filename _)|]; subst r; reflexivity. }
        intros content' Hc _; inversion Hc; subst content'.
        destruct (choose_reader output_filename) as [rd|];
          [destruct (call_reader W rd output_filename _) eqn:Hcall|];
          subst r; cbn [disk trace returned load_result];
          rewrite ?read_file_write, ?Hcall; repeat split.
      * split; [subst r; reflexivity|].
        repeat split; intros; try congruence; subst r; reflexivity.
    + split; [subst r; reflexivity|].
      repeat split; intros; try congruence; subst r; reflexivity.
  - split; [subst r; reflexivity|].
    repeat split; intros; try congruence; subst r; reflexivity.
Qed.

Lemma fallback_transport_witness :
  let W := sample_world (Raised (AttributeError "no attribute")) None
                        (Ok (200%Z, "a,b")) (Ok sample_trips) in
  let url := "https://drive.google.com/uc?id=ABC123" in
  let r := load_data_from_gdrive W "https://drive.example.com/file/d/ABC123/view?usp=sharing"
                                 "nyc_taxi_data.csv" [] in
  filter is_network_call (trace r) = [GdownDownload url "nyc_taxi_data.csv"; RequestsGet url]
  /\ disk r = [("nyc_taxi_data.csv", "a,b")]
  /\ filter is_file_write (trace r) = [FileWrite "nyc_taxi_data.csv" "a,b"]
  /\ load_result r = Loaded sample_trips.
Proof.
  intros W url r.
  destruct (fallback_transport W "https://drive.example.com/file/d/ABC123/view?usp=sharing"
              "nyc_taxi_data.csv" [] [] "no attribute" eq_refl eq_refl)
    as [Hcalls [Hok _]].
  destruct (Hok "a,b" eq_refl eq_refl) as [Hdisk [_ [Hwrite Hres]]].
  repeat split; assumption.
Defined.

(** C9. When the download block ends with a path in [result] the Fetcher
    still gives Failed(DownloadError) if the output file is not on disk,
    and calls no reader; a reader is called only when the file exists. *)
Theorem missing_file_is_download_error (W : world) (gdrive_url output_filename : string)
  (fs fs1 : filesystem) (p : string) (t1 : list event) :
  is_falsy (extract_file_id gdrive_url) = false ->
  download W (download_url_of (extract_file_id gdrive_url)) output_filename fs
  = (Result (Some p), fs1, t1) ->
  let r := load_data_from_gdrive W gdrive_url output_filename fs in
  (path_exists output_filename fs1 = false ->
   load_result r = Failed [DownloadError]
   /\ filter is_parse (trace r) = []
   /\ disk r = fs1)
  /\ (filter is_parse (trace r) <> [] -> path_exists output_filename fs1 = true).
Proof.
  intros Hid Hd r.
  destruct (download_result_facts _ _ _ _ _ _ _ Hd) as [Hp Hrep].
  assert (Hmissing : path_exists output_filename fs1 = false ->
                     r = {| returned := None; disk := fs1;
                            trace := ([StInfo (MsgFileIdDetected
                                                 (format_value (extract_file_id gdrive_url)));
                                       StSpinner MsgDownloading] ++ t1)
                                     ++ StError MsgDownloadFailed :: permission_help |}).
  { intros Hex; subst r; unfold load_data_from_gdrive. now rewrite Hid, Hd, Hex. }
  split.
  - intros Hex; rewrite (Hmissing Hex); unfold load_result; simpl.
    rewrite reported_app, filter_app, Hp, Hrep. auto.
  - intros Hparse.
    destruct (path_exists output_filename fs1) eqn:Hex; [reflexivity|].
    exfalso; apply Hparse. rewrite (Hmissing eq_refl); simpl.
    now rewrite filter_app, Hp.
Qed.

Lemma missing_file_is_download_error_witness :
  let W := sample_world (Ok (Some "nyc_taxi_data.csv")) None
                        (Ok (200%Z, "a,b")) (Ok sample_trips) in
  let r := load_data_from_gdrive W "https://drive.example.com/uc?id=XYZ789"
                                 "nyc_taxi_data.csv" [] in
  load_result r = Failed [DownloadError]
  /\ filter is_parse (trace r) = []
  /\ disk r = [].
Proof.
  intros W r.
  apply (missing_file_is_download_error W "https://drive.example.com/uc?id=XYZ789"
           "nyc_taxi_data.csv" [] [] "nyc_taxi_data.csv"
           [GdownDownload "https://drive.google.com/uc?id=XYZ789" "nyc_taxi_data.csv"]
           eq_refl eq_refl).
  reflexivity.
Defined.

(** *** The Normalizer: loops and exceptions *)

Lemma for_each_total {A : Type} (f : A -> result A) (l : list A) :
  (forall a, In a l -> exists b, f a = Ok b) ->
  for_each f l = Ok (map (fun a => value_or a (f a)) l).
Proof.
  induction l as [|a l IH]; intros H; simpl; [reflexivity|].
  destruct (H a (or_introl eq_refl)) as [b Hb]. rewrite Hb; simpl.
  rewrite IH by (intros; apply H; now right). reflexivity.
Qed.

Lemma numeric_step_returns (c : column) : exists c', numeric_step c = Ok c'.
Proof.
  unfold numeric_step.
  destruct (is_float_dtype (col_data c)); [eauto|].
  destruct (is_integer_dtype (col_data c)); eauto.
Qed.

(** The handler of the second loop catches whatever [pd.to_datetime]
    raises. *)
Lemma datetime_step_returns (P : pandas) (c : column) :
  exists c', datetime_step P c = Ok c'.
Proof.
  unfold datetime_step.
  destruct (is_datetime_name (col_name c)); [|eauto].
  destruct (to_datetime P (col_data c)); simpl; eauto.
Qed.

Lemma prepare_taxi_data_eq (P : pandas) (df : DataFrame) :
  let df1 := {| index := index df; columns := map (coerced P) (columns df) |} in
  prepare_taxi_data P df =
  Ok (drop_duplicates df1,
      if Nat.ltb 0 (len df1 - len (drop_duplicates df1))
      then [RemovedDuplicates (len df1 - len (drop_duplicates df1))] else []).
Proof.
  unfold prepare_taxi_data.
  rewrite for_each_total by (intros; apply numeric_step_returns).
  cbn [bind columns index].
  rewrite for_each_total by (intros; apply datetime_step_returns).
  cbn [bind columns index]. rewrite map_map. reflexivity.
Qed.

Lemma drop_marked_length {A : Type} (mask : list bool) (l : list A) :
  length (drop_marked mask l) <= length l.
Proof.
  revert l; induction mask as [|m mask IH]; intros [|x l]; simpl; try lia.
  specialize (IH l). destruct m; simpl; lia.
Qed.

Lemma drop_duplicates_len (df : DataFrame) : len (drop_duplicates df) <= len df.
Proof.
  unfold drop_duplicates. destruct (empty df); [lia|].
  unfold len; simpl. apply drop_marked_length.
Qed.

(** C7. The output of the Normalizer never has more rows than its input:
    the only operation on rows is the removal of duplicates. *)
Theorem row_count_monotone (P : pandas) (df : DataFrame) :
  exists (out : DataFrame) (notes : list note),
    prepare_taxi_data P df = Ok (out, notes) /\ len out <= len df.
Proof.
  rewrite prepare_taxi_data_eq. cbv zeta.
  eexists _, _; split; [reflexivity|].
  apply (drop_duplicates_len {| index := index df;
                                columns := map (coerced P) (columns df) |}).
Qed.


(** *** Column names and timestamp parsing *)

Lemma prefix_iff (a b : string) :
  String.prefix a b = true <-> exists post, b = (a ++ post)%string.
Proof.
  revert b; induction a as [|x a IH]; intros b; simpl.
  - split; [intros _; now exists b | intros _; now destruct b].
  - destruct b as [|y b]; simpl.
    + split; [discriminate | intros [post H]; discriminate].
    + destruct (ascii_dec x y) as [->|Hxy].
      * rewrite IH. split; intros [post H]; exists post; [now rewrite H | now inversion H].
      * split; [discriminate | intros [post H]; inversion H; congruence].
Qed.

Lemma contains_unfold (needle hay : string) :
  contains needle hay =
  if String.prefix needle hay then true
  else match hay with
       | EmptyString => false
       | String _ hay' => contains needle hay'
       end.
Proof. destruct hay; reflexivity. Qed.

(** [contains] is the substring test. *)
Lemma contains_iff (needle hay : string) :
  contains needle hay = true <->
  exists pre post, hay = (pre ++ needle ++ post)%string.
Proof.
  split.
  - induction hay as [|a hay IH]; rewrite contains_unfold;
      destruct (String.prefix needle _) eqn:E.
    + intros _; apply prefix_iff in E as [post E]. now exists EmptyString, post.
    + discriminate.
    + intros _; apply prefix_iff in E as [post E]. now exists EmptyString, post.
    + intros H; destruct (IH H) as [pre [post ->]]. now exists (String a pre), post.
  - intros [pre [post ->]]; induction pre as [|a pre IH]; rewrite contains_unfold.
    + assert (E : String.prefix needle (needle ++ post) = true)
        by (apply prefix_iff; now exists post).
      simpl; now rewrite E.
    + simpl append; cbv iota. rewrite IH. now destruct (String.prefix _ _).
Qed.

Lemma is_datetime_name_iff (col : string) :
  is_datetime_name col = true <->
  exists keyword pre post,
    In keyword datetime_keywords /\ lower col = (pre ++ keyword ++ post)%string.
Proof.
  unfold is_datetime_name. rewrite existsb_exists. split.
  - intros [k [Hk H]]; apply contains_iff in H as [pre [post H]]. now exists k, pre, post.
  - intros [k [pre [post [Hk H]]]]. exists k; split; [exact Hk|].
    apply contains_iff; now exists pre, post.
Qed.




Example pickup_column_parsed :
  datetime_step sample_pandas
    {| col_name := "tpep_pickup_datetime";
       col_data := ObjectSeries [Some "2023-01-01 00:10:00"; Some "n/a";
                                 Some "2023-01-01 00:30:00"] |}
  = Ok {| col_name := "tpep_pickup_datetime";
          col_data := DatetimeSeries [Some 10%Z; None; Some 30%Z] |}.
Proof. reflexivity. Qed.

Example raising_column_unchanged :
  datetime_step sample_pandas
    {| col_name := "Trip_Time"; col_data := ObjectSeries [Some "raise"; Some "n/a"] |}
  = Ok {| col_name := "Trip_Time"; col_data := ObjectSeries [Some "raise"; Some "n/a"] |}.
Proof. reflexivity. Qed.

(** *** Masks and duplicate rows *)

Lemma drop_marked_map {A B : Type} (f : A -> B) (mask : list bool) (l : list A) :
  drop_marked mask (map f l) = map f (drop_marked mask l).
Proof.
  revert l; induction mask as [|m mask IH]; intros [|x l]; simpl; try reflexivity.
  destruct m; simpl; now rewrite IH.
Qed.

Lemma drop_marked_In {A : Type} (mask : list bool) (l : list A) (x : A) :
  In x (drop_marked mask l) -> In x l.
Proof.
  revert l; induction mask as [|m mask IH]; intros [|y l]; simpl; try tauto.
  destruct m; simpl; intros H; [right; now apply IH|].
  destruct H as [H|H]; [now left | right; now apply IH].
Qed.

Lemma drop_marked_length_eq {A B : Type} (mask : list bool) (l : list A) (l' : list B) :
  length l = length l' ->
  length (drop_marked mask l) = length (drop_marked mask l').
Proof.
  revert l l'; induction mask as [|m mask IH]; intros [|x l] [|y l'] H;
    simpl in *; try reflexivity; try discriminate.
  injection H as H. destruct m; simpl; now rewrite (IH l l' H).
Qed.


Lemma row_in_iff (r : row) (seen : list row) : row_in r seen = true <-> In r seen.
Proof.
  unfold row_in; destruct (in_dec row_eq_dec r seen); split; auto; discriminate.
Qed.

Lemma duplicated_from_length (seen rs : list row) :
  length (duplicated_from seen rs) = length rs.
Proof.
  revert seen; induction rs as [|r rs IH]; intros seen; simpl; [reflexivity|].
  now rewrite IH.
Qed.

(** Every row is kept or was seen before. *)
Lemma kept_or_seen (seen rs : list row) (r : row) :
  In r rs -> In r seen \/ In r (drop_marked (duplicated_from seen rs) rs).
Proof.
  revert seen; induction rs as [|r0 rs IH]; intros seen; simpl; [tauto|].
  assert (Hhead : In r0 seen \/
                  In r0 (if row_in r0 seen
                         then drop_marked (duplicated_from (r0 :: seen) rs) rs
                         else r0 :: drop_marked (duplicated_from (r0 :: seen) rs) rs)).
  { destruct (row_in r0 seen) eqn:E; [left; now apply row_in_iff | right; now left]. }
  intros [<-|H]; [exact Hhead|].
  destruct (IH (r0 :: seen) H) as [[<-|Hs]|Hk]; [exact Hhead | now left |].
  right; destruct (row_in r0 seen); [exact Hk | now right].
Qed.




(** *** Frames under a mask *)

Lemma series_length_cells (s : series) : series_length s = length (cells s).
Proof. destruct s; simpl; now rewrite length_map. Qed.

Lemma cells_drop_marked (mask : list bool) (s : series) :
  cells (series_drop_marked mask s) = drop_marked mask (cells s).
Proof. destruct s; simpl; now rewrite drop_marked_map. Qed.


Lemma nth_error_seq {A : Type} (l : list A) :
  map (nth_error l) (seq 0 (length l)) = map Some l.
Proof.
  induction l as [|a l IH]; simpl; [reflexivity|].
  rewrite <- seq_shift, map_map. f_equal. rewrite <- IH.
  apply map_ext; reflexivity.
Qed.

(** The entries a mask keeps are the entries at the kept positions. *)
Lemma drop_marked_positions {A : Type} (mask : list bool) (l : list A) :
  map Some (drop_marked mask l)
  = map (nth_error l) (drop_marked mask (seq 0 (length l))).
Proof. now rewrite <- !drop_marked_map, nth_error_seq. Qed.


Lemma map_positions {A B : Type} (f : nat -> B) (g : A -> B) (K : list A) :
  (forall k j, nth_error K k = Some j -> f k = g j) ->
  map f (seq 0 (length K)) = map g K.
Proof.
  revert f; induction K as [|j K IH]; intros f H; simpl; [reflexivity|].
  rewrite (H 0 j eq_refl). f_equal.
  rewrite <- seq_shift, map_map. apply IH.
  intros k j' Hk. now apply (H (S k)).
Qed.


Lemma nth_error_drop_marked {A : Type} (mask : list bool) (l : list A) (k j : nat) :
  nth_error (drop_marked mask (seq 0 (length l))) k = Some j ->
  nth_error (drop_marked mask l) k = nth_error l j.
Proof.
  intros H.
  pose proof (f_equal (fun x => nth_error x k) (drop_marked_positions mask l)) as E.
  simpl in E. rewrite !nth_error_map, H in E. simpl in E.
  destruct (nth_error (drop_marked mask l) k); simpl in E; congruence.
Qed.

(** The rows of a masked frame are the kept rows of the frame. *)
Lemma rows_frame_drop_marked (mask : list bool) (df : DataFrame) :
  well_formed df ->
  rows (frame_drop_marked mask df) = drop_marked mask (rows df).
Proof.
  intros Hwf. unfold rows at 2. rewrite drop_marked_map.
  unfold rows, len; simpl.
  rewrite (drop_marked_length_eq mask (index df) (seq 0 (length (index df))))
    by now rewrite length_seq.
  apply map_positions. intros k j Hk.
  unfold row_at. rewrite map_map. apply map_ext_in. intros c Hc; simpl.
  rewrite cells_drop_marked.
  apply nth_error_drop_marked.
  unfold well_formed in Hwf. rewrite Forall_forall in Hwf.
  rewrite <- series_length_cells, (Hwf c Hc). exact Hk.
Qed.

Lemma frame_drop_marked_well_formed (mask : list bool) (df : DataFrame) :
  well_formed df -> well_formed (frame_drop_marked mask df).
Proof.
  unfold well_formed, len; simpl. rewrite !Forall_forall.
  intros Hwf c Hc. apply in_map_iff in Hc as [c0 [<- Hc0]]; simpl.
  rewrite series_length_cells, cells_drop_marked.
  apply drop_marked_length_eq.
  rewrite <- series_length_cells. now apply Hwf.
Qed.



(** *** Re-coercion of a coerced column *)

Lemma coerced_eq (P : pandas) (c : column) :
  coerced P c = {| col_name := col_name c;
                   col_data := coerced_series P (col_name c) (col_data c) |}.
Proof.
  destruct c as [name s]. unfold coerced, coerced_series, numeric_step, datetime_step.
  destruct s; simpl; destruct (is_datetime_name name); simpl; try reflexivity;
    match goal with
    | |- context [for_each ?f ?l] => destruct (for_each f l); reflexivity
    end.
Qed.












(** *** Idempotence *)

Lemma for_each_length {A B : Type} (f : A -> result B) (l : list A) (bs : list B) :
  for_each f l = Ok bs -> length bs = length l.
Proof.
  revert bs; induction l as [|a l IH]; intros bs; simpl.
  - intros H; now inversion H.
  - destruct (f a); simpl; [|discriminate].
    destruct (for_each f l); simpl; [|discriminate].
    intros H; inversion H; simpl. now rewrite (IH _ eq_refl).
Qed.

Lemma scalars_length (s : series) :
  match s with
  | DatetimeSeries _ => True
  | _ => length (scalars s) = series_length s
  end.
Proof. destruct s; simpl; auto using length_map. Qed.

Lemma to_datetime_length (P : pandas) (s s2 : series) :
  to_datetime P s = Ok s2 -> series_length s2 = series_length s.
Proof.
  pose proof (scalars_length s) as Hl.
  destruct s; simpl in *;
    try (destruct (for_each _ _) as [ts|] eqn:E; simpl; intros H; inversion H; simpl;
         rewrite (for_each_length _ _ _ E); exact Hl).
  intros H; now inversion H.
Qed.

Lemma coerced_series_length (P : pandas) (name : string) (s : series) :
  series_length (coerced_series P name s) = series_length s.
Proof.
  assert (Hnum : series_length (to_numeric (is_integer_dtype s) s) = series_length s)
    by now destruct s.
  unfold coerced_series. destruct (is_datetime_name name); [|exact Hnum].
  destruct (to_datetime P _) eqn:E; [|exact Hnum].
  now rewrite (to_datetime_length _ _ _ E).
Qed.

Lemma coerced_well_formed (P : pandas) (df : DataFrame) :
  well_formed df ->
  well_formed {| index := index df; columns := map (coerced P) (columns df) |}.
Proof.
  unfold well_formed, len; simpl. rewrite !Forall_forall.
  intros Hwf c Hc. apply in_map_iff in Hc as [c0 [<- Hc0]].
  rewrite coerced_eq; simpl. rewrite coerced_series_length. now apply Hwf.
Qed.






(** *** The scenarios of the specification, run on the model *)

Example uc_link_extracted :
  extract_file_id "https://drive.example.com/uc?id=XYZ789" = Some "XYZ789".
Proof. reflexivity. Qed.

Example not_a_url_rejected : extract_file_id "not-a-url" = None.
Proof. reflexivity. Qed.

(** An [id=] earlier in the reference wins over a later [/open?id=]. *)
Example second_pattern_leftmost :
  extract_file_id "https://x/y?uid=5/open?id=X" = Some "5".
Proof. reflexivity. Qed.

(** Two identical rows among five: four rows are left, one removal is
    reported, the integer columns are narrowed and the pickup column is a
    datetime column whose malformed entry is null. *)
Example sample_trips_prepared :
  prepare_taxi_data sample_pandas sample_trips =
  Ok ({| index := [0; 1; 3; 4]%Z;
         columns :=
           [ {| col_name := "VendorID"; col_data := IntSeries I8 [1; 2; 2; 1]%Z |};
             {| col_name := "tpep_pickup_datetime";
                col_data := DatetimeSeries [Some 10; Some 20; None; Some 30]%Z |};
             {| col_name := "fare_amount";
                col_data := FloatSeries [Some 1050; Some 700; None; Some 2500]%Z |};
             {| col_name := "passenger_count";
                col_data := IntSeries I32 [1; 300; 2; 70000]%Z |} ] |},
      [RemovedDuplicates 1]).
Proof. vm_compute. reflexivity. Qed.

(** ** Part III. Further properties of the code *)

(** *** The extracted identifier *)

Lemma string_app_nil_r (s : string) : (s ++ "")%string = s.
Proof. induction s as [|c s IH]; simpl; [reflexivity | now rewrite IH]. Qed.

Lemma captures_shape (lit s id : string) :
  captures lit s id ->
  id <> EmptyString /\ all_chars Re.is_id_char id = true
  /\ exists pre post, s = (pre ++ id ++ post)%string.
Proof.
  intros [pre [post [E [Hne [Hall _]]]]]. repeat split; auto.
  exists (pre ++ lit)%string, post. now rewrite string_app_assoc.
Qed.

(** X1. Whatever the extraction returns is a non-empty run of identifier
    characters that occurs in the reference. *)
Theorem extracted_id_well_formed (url id : string) :
  extract_file_id url = Some id ->
  id <> EmptyString
  /\ all_chars Re.is_id_char id = true
  /\ exists pre post, url = (pre ++ id ++ post)%string.
Proof.
  rewrite extract_file_id_eq.
  destruct (Re.search pattern1 url) as [g1|] eqn:E1;
    [|destruct (Re.search pattern2 url) as [g2|] eqn:E2];
    intros H; try (inversion H; subst);
    eapply captures_shape, search_captures; eassumption.
Qed.

Lemma extracted_id_well_formed_witness :
  "XYZ789" <> EmptyString
  /\ all_chars Re.is_id_char "XYZ789" = true
  /\ exists pre post,
       "https://drive.example.com/uc?id=XYZ789" = (pre ++ "XYZ789" ++ post)%string.
Proof.
  apply (extracted_id_well_formed "https://drive.example.com/uc?id=XYZ789" "XYZ789").
  reflexivity.
Defined.

Lemma search_slash_in_id (lit id : string) :
  all_chars Re.is_id_char id = true ->
  Re.search (String "/" lit) id = None.
Proof.
  induction id as [|c id IH]; intros Hall; [reflexivity|].
  simpl in Hall; apply andb_true_iff in Hall as [Hc Hall].
  rewrite search_unfold. unfold Re.match_here; cbn [Re.strip_prefix].
  destruct (Ascii.eqb_spec "/" c) as [<-|]; [discriminate | now apply IH].
Qed.

(** X2. The download URL built from an identifier is itself a reference
    from which the extraction gives that identifier back. *)
Theorem download_url_round_trip (id : string) :
  id <> EmptyString -> all_chars Re.is_id_char id = true ->
  extract_file_id (download_url_of (Some id)) = Some id.
Proof.
  intros Hne Hall. rewrite extract_file_id_eq.
  assert (E1 : Re.search pattern1 (download_url_of (Some id)) = None).
  { unfold download_url_of, format_value, pattern1.
    cbn -[Re.is_id_char]. now apply search_slash_in_id. }
  rewrite E1.
  assert (Ht : Re.take_while Re.is_id_char id = id).
  { rewrite <- (string_app_nil_r id) at 1. now apply take_while_app. }
  unfold download_url_of, format_value, pattern2.
  cbn -[Re.is_id_char Re.take_while]. rewrite Ht.
  destruct id; [contradiction | reflexivity].
Qed.

Lemma download_url_round_trip_witness :
  extract_file_id (download_url_of (Some "a-b_C9")) = Some "a-b_C9".
Proof.
  apply (download_url_round_trip "a-b_C9"); [discriminate | reflexivity].
Defined.

(** X3. A reference is rejected exactly when it has no [/file/d/] and no
    [id=] that is followed by an identifier character. *)
Theorem rejected_iff_no_occurrence (url : string) :
  extract_file_id url = None <->
  forall (pre : string) (c : ascii) (rest : string),
    Re.is_id_char c = true ->
    url <> (pre ++ "/file/d/" ++ String c rest)%string
    /\ url <> (pre ++ "id=" ++ String c rest)%string.
Proof.
  rewrite extract_file_id_eq. split.
  - intros H pre c rest Hc.
    destruct (Re.search pattern1 url) as [g1|] eqn:E1; [discriminate|].
    destruct (Re.search pattern2 url) as [g2|] eqn:E2; [discriminate|].
    split; intros ->.
    + destruct (search_complete pattern1 pre c rest Hc) as [x Hx].
      unfold pattern1 in *; congruence.
    + destruct (search_complete pattern2 pre c rest Hc) as [x Hx].
      unfold pattern2 in *; congruence.
  - intros H.
    assert (Hno : forall lit, (forall pre c rest, Re.is_id_char c = true ->
                                 url <> (pre ++ lit ++ String c rest)%string) ->
                              Re.search lit url = None).
    { intros lit Hl. destruct (Re.search lit url) as [id|] eqn:E; [|reflexivity].
      apply search_captures in E as [pre [post [E [Hne [Hall _]]]]].
      destruct id as [|c id]; [contradiction|].
      simpl in Hall; apply andb_true_iff in Hall as [Hc _].
      exfalso; apply (Hl pre c (id ++ post)%string Hc). exact E. }
    assert (E1 : Re.search pattern1 url = None)
      by (apply Hno; intros pre c rest Hc; apply (H pre c rest Hc)).
    assert (E2 : Re.search pattern2 url = None)
      by (apply Hno; intros pre c rest Hc; apply (H pre c rest Hc)).
    rewrite E1, E2.
    destruct (Re.search pattern3 url) as [id|] eqn:E3; [|reflexivity].
    destruct (pattern3_implies_pattern2 _ _ E3) as [id' E]; congruence.
Qed.

(** *** Every run of the Fetcher *)

Lemma read_file_write_other (path other : string) (content : bytes) (fs : filesystem) :
  other <> path ->
  read_file other (write_file path content fs) = read_file other fs.
Proof.
  intros H. unfold read_file, write_file; simpl.
  destruct (String.eqb_spec path other); [congruence | reflexivity].
Qed.

(** The paths a call can take, one goal for each. *)
Ltac fetch_cases W url out fs :=
  unfold load_data_from_gdrive, download;
  destruct (is_falsy (extract_file_id url)) eqn:?Hid;
  [| destruct (gdown_download W (download_url_of (extract_file_id url)) out fs)
       as [[[p|]|[m|m]] fs1] eqn:?Hg;
     [ destruct (path_exists out fs1) eqn:?Hex
     |
     | destruct (requests_get W (download_url_of (extract_file_id url)))
         as [[status content]|req_error] eqn:?Hget;
       [ destruct (Z.eqb_spec status 200) as [Hstatus|Hstatus];
         [ destruct (open_wb W out fs1) as [[]|write_error] eqn:?Hopen;
           [ rewrite ?path_exists_write | ]
         | ]
       | ]
     | ] ];
  cbn [orb negb];
  try (destruct (choose_reader out) as [rd|] eqn:?Hrd;
       [ destruct (call_reader W rd out _) as [df'|e'] eqn:?Hcall | ]).

(** X4. When [gdown.download] raises anything but an AttributeError there
    is no second attempt: the call fails with a download error, reads
    nothing and writes nothing. *)
Theorem gdown_exception_no_fallback (W : world) (gdrive_url output_filename : string)
  (fs fs1 : filesystem) (msg : string) :
  is_falsy (extract_file_id gdrive_url) = false ->
  gdown_download W (download_url_of (extract_file_id gdrive_url)) output_filename fs
  = (Raised (Exception msg), fs1) ->
  let r := load_data_from_gdrive W gdrive_url output_filename fs in
  load_result r = Failed [DownloadError]
  /\ filter is_network_call (trace r)
     = [GdownDownload (download_url_of (extract_file_id gdrive_url)) output_filename]
  /\ filter is_file_write (trace r) = []
  /\ filter is_parse (trace r) = []
  /\ disk r = fs1.
Proof.
  intros Hid Hg. unfold load_data_from_gdrive, download. rewrite Hid, Hg.
  repeat split.
Qed.

Lemma gdown_exception_no_fallback_witness :
  let r := load_data_from_gdrive
             (sample_world (Raised (Exception "quota exceeded")) None
                           (Ok (200%Z, "a,b")) (Ok sample_trips))
             "https://drive.example.com/uc?id=XYZ789" "nyc_taxi_data.csv" [] in
  load_result r = Failed [DownloadError]
  /\ filter is_network_call (trace r)
     = [GdownDownload "https://drive.google.com/uc?id=XYZ789" "nyc_taxi_data.csv"]
  /\ filter is_file_write (trace r) = []
  /\ filter is_parse (trace r) = []
  /\ disk r = [].
Proof.
  apply (gdown_exception_no_fallback
           (sample_world (Raised (Exception "quota exceeded")) None
                         (Ok (200%Z, "a,b")) (Ok sample_trips))
           "https://drive.example.com/uc?id=XYZ789" "nyc_taxi_data.csv" [] []
           "quota exceeded"); reflexivity.
Defined.

(** X5. When [gdown.download] returns [None] the call fails with a
    download error and no reader is called, also when a file of the output
    name is on disk (left by an earlier run, say). *)
Theorem gdown_none_ignores_existing_file (W : world)
  (gdrive_url output_filename : string) (fs fs1 : filesystem) :
  is_falsy (extract_file_id gdrive_url) = false ->
  gdown_download W (download_url_of (extract_file_id gdrive_url)) output_filename fs
  = (Ok None, fs1) ->
  let r := load_data_from_gdrive W gdrive_url output_filename fs in
  load_result r = Failed [DownloadError]
  /\ filter is_parse (trace r) = []
  /\ filter is_network_call (trace r)
     = [GdownDownload (download_url_of (extract_file_id gdrive_url)) output_filename]
  /\ disk r = fs1.
Proof.
  intros Hid Hg. unfold load_data_from_gdrive, download. rewrite Hid, Hg.
  repeat split.
Qed.

Lemma gdown_none_ignores_existing_file_witness :
  let fs := [("nyc_taxi_data.csv", "old,data")] in
  let r := load_data_from_gdrive
             (sample_world (Ok None) None (Ok (200%Z, "a,b")) (Ok sample_trips))
             "https://drive.example.com/uc?id=XYZ789" "nyc_taxi_data.csv" fs in
  path_exists "nyc_taxi_data.csv" fs = true
  /\ load_result r = Failed [DownloadError]
  /\ filter is_parse (trace r) = []
  /\ filter is_network_call (trace r)
     = [GdownDownload "https://drive.google.com/uc?id=XYZ789" "nyc_taxi_data.csv"]
  /\ disk r = fs.
Proof.
  intros fs r. split; [reflexivity|].
  apply (gdown_none_ignores_existing_file
           (sample_world (Ok None) None (Ok (200%Z, "a,b")) (Ok sample_trips))
           "https://drive.example.com/uc?id=XYZ789" "nyc_taxi_data.csv" fs fs);
    reflexivity.
Defined.

(** X6. A frame is returned only as what the reader chosen by the file
    name made of the output file: the reference was valid, the file is on
    disk when the call ends (it is not removed), and that reader was the
    only one called. *)
Theorem loaded_only_from_reader (W : world) (gdrive_url output_filename : string)
  (fs : filesystem) (df : DataFrame) :
  let r := load_data_from_gdrive W gdrive_url output_filename fs in
  returned r = Some df ->
  is_falsy (extract_file_id gdrive_url) = false
  /\ path_exists output_filename (disk r) = true
  /\ exists rd, choose_reader output_filename = Some rd
                /\ call_reader W rd output_filename (disk r) = Ok df
                /\ filter is_parse (trace r) = [Parse rd output_filename].
Proof.
  cbv zeta. fetch_cases W gdrive_url output_filename fs;
    cbn [returned disk trace]; intros H; try discriminate;
    inversion H; subst; (split; [reflexivity|]);
    (split; [first [assumption | apply path_exists_write]|]);
    exists rd; repeat split; assumption.
Qed.

Lemma loaded_only_from_reader_witness :
  let W := sample_world (Ok (Some "nyc_taxi_data.csv")) (Some "a,b")
                        (Ok (200%Z, "")) (Ok sample_trips) in
  let r := load_data_from_gdrive W "https://drive.example.com/uc?id=XYZ789"
                                 "nyc_taxi_data.csv" [] in
  is_falsy (extract_file_id "https://drive.example.com/uc?id=XYZ789") = false
  /\ path_exists "nyc_taxi_data.csv" (disk r) = true
  /\ exists rd, choose_reader "nyc_taxi_data.csv" = Some rd
                /\ call_reader W rd "nyc_taxi_data.csv" (disk r) = Ok sample_trips
                /\ filter is_parse (trace r) = [Parse rd "nyc_taxi_data.csv"].
Proof.
  intros W r.
  apply (loaded_only_from_reader W "https://drive.example.com/uc?id=XYZ789"
           "nyc_taxi_data.csv" [] sample_trips).
  reflexivity.
Defined.

(** X7. Every call ends in one of two ways: a frame and no error shown,
    or no frame and exactly one error shown. *)
Theorem one_failure_per_run (W : world) (gdrive_url output_filename : string)
  (fs : filesystem) :
  match load_result (load_data_from_gdrive W gdrive_url output_filename fs) with
  | Loaded _ => reported (trace (load_data_from_gdrive W gdrive_url output_filename fs)) = []
  | Failed reasons => exists reason, reasons = [reason]
  end.
Proof.
  unfold load_result.
  fetch_cases W gdrive_url output_filename fs; cbn; eauto.
Qed.


(** X9. Apart from what [gdown.download] leaves on disk, a call changes
    no file but the output file. *)
Theorem disk_change_confined (W : world) (gdrive_url output_filename : string)
  (fs : filesystem) (path : string) :
  path <> output_filename ->
  read_file path (disk (load_data_from_gdrive W gdrive_url output_filename fs))
  = read_file path
      (if is_falsy (extract_file_id gdrive_url) then fs
       else snd (gdown_download W (download_url_of (extract_file_id gdrive_url))
                                output_filename fs)).
Proof.
  intros Hpath.
  fetch_cases W gdrive_url output_filename fs; cbn [disk snd];
    rewrite ?read_file_write_other by exact Hpath; reflexivity.
Qed.

Lemma disk_change_confined_witness :
  let W := sample_world (Raised (AttributeError "no attribute")) None
                        (Ok (200%Z, "a,b")) (Ok sample_trips) in
  let fs := [("notes.txt", "keep")] in
  read_file "notes.txt"
    (disk (load_data_from_gdrive W "https://drive.example.com/uc?id=XYZ789"
                                 "nyc_taxi_data.csv" fs))
  = Some "keep".
Proof.
  intros W fs.
  rewrite (disk_change_confined W "https://drive.example.com/uc?id=XYZ789"
             "nyc_taxi_data.csv" fs "notes.txt"); [reflexivity | discriminate].
Defined.

(** *** File names and readers *)

(** X10. The reader is chosen by the suffix of the file name, letter for
    letter: [.csv] gives the CSV reader, [.parquet] the Parquet reader,
    [.xlsx] or [.xls] the Excel reader, and a name with none of these
    suffixes gives none. *)
Theorem choose_reader_by_suffix (output_filename : string) :
  (choose_reader output_filename = Some ReadCsv <->
   exists pre, output_filename = (pre ++ ".csv")%string)
  /\ (choose_reader output_filename = Some ReadParquet <->
      exists pre, output_filename = (pre ++ ".parquet")%string)
  /\ (choose_reader output_filename = Some ReadExcel <->
      exists pre, output_filename = (pre ++ ".xlsx")%string
                  \/ output_filename = (pre ++ ".xls")%string)
  /\ (choose_reader output_filename = None <->
      forall pre, output_filename <> (pre ++ ".csv")%string
                  /\ output_filename <> (pre ++ ".parquet")%string
                  /\ output_filename <> (pre ++ ".xlsx")%string
                  /\ output_filename <> (pre ++ ".xls")%string).
Proof.
  assert (Hsuf : forall suffix, ends_with output_filename suffix = false <->
                                forall pre, output_filename <> (pre ++ suffix)%string).
  { intros suffix; split.
    - intros H pre E.
      assert (ends_with output_filename suffix = true)
        by (apply ends_with_iff; now exists pre).
      congruence.
    - intros H. destruct (ends_with output_filename suffix) eqn:E; [|reflexivity].
      apply ends_with_iff in E as [pre E]. now apply H in E. }
  repeat split.
  - unfold choose_reader. intros H. apply ends_with_iff.
    destruct (ends_with output_filename ".csv"); [reflexivity|].
    destruct (ends_with output_filename ".parquet"); [discriminate|].
    destruct (_ || _); discriminate.
  - intros H; apply ends_with_iff in H. unfold choose_reader. now rewrite H.
  - unfold choose_reader. intros H. apply ends_with_iff.
    destruct (ends_with output_filename ".csv"); [discriminate|].
    destruct (ends_with output_filename ".parquet"); [reflexivity|].
    destruct (_ || _); discriminate.
  - intros H; apply ends_with_iff in H. now apply choose_reader_parquet.
  - unfold choose_reader. intros H.
    destruct (ends_with output_filename ".csv"); [discriminate|].
    destruct (ends_with output_filename ".parquet"); [discriminate|].
    destruct (ends_with output_filename ".xlsx") eqn:Ex.
    + apply ends_with_iff in Ex as [pre Ex]. exists pre; now left.
    + destruct (ends_with output_filename ".xls") eqn:Es; [|discriminate].
      apply ends_with_iff in Es as [pre Es]. exists pre; now right.
  - intros [pre [H|H]]; apply choose_reader_excel; [left | right];
      apply ends_with_iff; now exists pre.
  - apply Hsuf. unfold choose_reader in H.
    destruct (ends_with output_filename ".csv"); [discriminate | reflexivity].
  - apply Hsuf. unfold choose_reader in H.
    destruct (ends_with output_filename ".csv"); [discriminate|].
    destruct (ends_with output_filename ".parquet"); [discriminate | reflexivity].
  - apply Hsuf. unfold choose_reader in H.
    destruct (ends_with output_filename ".csv"); [discriminate|].
    destruct (ends_with output_filename ".parquet"); [discriminate|].
    destruct (ends_with output_filename ".xlsx"); [discriminate | reflexivity].
  - apply Hsuf. unfold choose_reader in H.
    destruct (ends_with output_filename ".csv"); [discriminate|].
    destruct (ends_with output_filename ".parquet"); [discriminate|].
    destruct (ends_with output_filename ".xlsx"); [discriminate|].
    destruct (ends_with output_filename ".xls"); [discriminate | reflexivity].
  - intros H. unfold choose_reader.
    rewrite (proj2 (Hsuf ".csv")), (proj2 (Hsuf ".parquet")),
      (proj2 (Hsuf ".xlsx")), (proj2 (Hsuf ".xls"));
      [reflexivity | | | |]; intros pre; apply (H pre).
Qed.

(** X11. For each format the sidebar offers, the file name the dashboard
    builds has a reader, so a load started from the dashboard never ends
    with the unsupported-format error. *)
Theorem dashboard_formats_supported (W : world) (gdrive_url file_format : string)
  (fs : filesystem) :
  In file_format file_formats ->
  choose_reader (output_file file_format) <> None
  /\ ~ In UnsupportedFormat
         (reported (trace (load_data_from_gdrive W gdrive_url
                                                 (output_file file_format) fs))).
Proof.
  intros Hin.
  assert (Hrd : exists rd, choose_reader (output_file file_format) = Some rd)
    by (simpl in Hin; destruct Hin as [<-|[<-|[<-|[]]]]; eexists; reflexivity).
  destruct Hrd as [rd0 Hrd0]. split; [congruence|].
  fetch_cases W gdrive_url (output_file file_format) fs; cbn;
    try congruence; intuition discriminate.
Qed.

Lemma dashboard_formats_supported_witness :
  choose_reader (output_file "xlsx") <> None
  /\ ~ In UnsupportedFormat
         (reported (trace (load_data_from_gdrive
                             (sample_world (Ok (Some "nyc_taxi_data.xlsx")) (Some "PK")
                                           (Ok (200%Z, "")) (Ok sample_trips))
                             "https://drive.example.com/uc?id=XYZ789"
                             (output_file "xlsx") []))).
Proof.
  apply (dashboard_formats_supported
           (sample_world (Ok (Some "nyc_taxi_data.xlsx")) (Some "PK")
                         (Ok (200%Z, "")) (Ok sample_trips))
           "https://drive.example.com/uc?id=XYZ789" "xlsx" []).
  simpl; auto.
Defined.

(** *** What the Normalizer keeps *)

Lemma col_name_coerced (P : pandas) (c : column) : col_name (coerced P c) = col_name c.
Proof. now rewrite coerced_eq. Qed.

Lemma drop_duplicates_names (df : DataFrame) :
  map col_name (columns (drop_duplicates df)) = map col_name (columns df).
Proof.
  unfold drop_duplicates. destruct (empty df); [reflexivity|].
  unfold frame_drop_marked; simpl. now rewrite map_map.
Qed.

Lemma drop_duplicates_well_formed (df : DataFrame) :
  well_formed df -> well_formed (drop_duplicates df).
Proof.
  intros H. unfold drop_duplicates. destruct (empty df); [exact H|].
  now apply frame_drop_marked_well_formed.
Qed.

(** X12. The Normalizer returns a frame with the columns of its input,
    under the same names and in the same order. *)
Theorem column_names_preserved (P : pandas) (df : DataFrame) :
  exists (out : DataFrame) (notes : list note),
    prepare_taxi_data P df = Ok (out, notes)
    /\ map col_name (columns out) = map col_name (columns df).
Proof.
  rewrite prepare_taxi_data_eq. cbv zeta. eexists _, _; split; [reflexivity|].
  rewrite drop_duplicates_names; simpl. rewrite map_map.
  apply map_ext. intros c; apply col_name_coerced.
Qed.

(** X13. On a frame whose columns all have one entry per row the
    Normalizer returns such a frame again. *)
Theorem well_formed_preserved (P : pandas) (df : DataFrame) :
  well_formed df ->
  exists (out : DataFrame) (notes : list note),
    prepare_taxi_data P df = Ok (out, notes) /\ well_formed out.
Proof.
  intros Hwf. rewrite prepare_taxi_data_eq. cbv zeta.
  eexists _, _; split; [reflexivity|].
  now apply drop_duplicates_well_formed, coerced_well_formed.
Qed.

Lemma well_formed_preserved_witness :
  exists (out : DataFrame) (notes : list note),
    prepare_taxi_data sample_pandas sample_trips = Ok (out, notes) /\ well_formed out.
Proof.
  apply (well_formed_preserved sample_pandas sample_trips).
  unfold well_formed; simpl; repeat constructor.
Defined.

Lemma kept_distinct (seen rs : list row) :
  let kept := drop_marked (duplicated_from seen rs) rs in
  NoDup kept /\ forall r, In r kept -> ~ In r seen.
Proof.
  revert seen; induction rs as [|r0 rs IH]; intros seen; simpl.
  - split; [constructor | tauto].
  - destruct (IH (r0 :: seen)) as [Hnd Hseen]. simpl in Hseen.
    destruct (row_in r0 seen) eqn:E.
    + split; [exact Hnd|]. intros r Hr Hs. apply (Hseen r Hr). now right.
    + split.
      * constructor; [|exact Hnd]. intros Hin. apply (Hseen r0 Hin). now left.
      * intros r [<-|Hr] Hs.
        -- apply row_in_iff in Hs. congruence.
        -- apply (Hseen r Hr). now right.
Qed.

Lemma empty_rows (df : DataFrame) :
  empty df = true -> columns df <> [] -> rows df = [].
Proof.
  unfold empty, rows. intros H Hc.
  apply orb_true_iff in H as [H|H]; apply Nat.eqb_eq in H.
  - now rewrite H.
  - destruct (columns df); [contradiction | discriminate].
Qed.

Lemma drop_duplicates_rows (df : DataFrame) :
  well_formed df -> columns df <> [] ->
  rows (drop_duplicates df) = drop_marked (duplicated df) (rows df).
Proof.
  intros Hwf Hc. unfold drop_duplicates.
  destruct (empty df) eqn:E.
  - rewrite (empty_rows df E Hc). now destruct (duplicated df).
  - now apply rows_frame_drop_marked.
Qed.

(** X14. On a frame with at least one column, all of one length, no two
    rows of the Normalizer's output are equal. *)
Theorem output_rows_distinct (P : pandas) (df : DataFrame) :
  well_formed df -> columns df <> [] ->
  exists (out : DataFrame) (notes : list note),
    prepare_taxi_data P df = Ok (out, notes) /\ NoDup (rows out).
Proof.
  intros Hwf Hc. rewrite prepare_taxi_data_eq. cbv zeta.
  eexists _, _; split; [reflexivity|].
  rewrite drop_duplicates_rows.
  - apply (kept_distinct [] _).
  - now apply coerced_well_formed.
  - simpl. destruct (columns df); [contradiction | discriminate].
Qed.

Lemma output_rows_distinct_witness :
  exists (out : DataFrame) (notes : list note),
    prepare_taxi_data sample_pandas sample_trips = Ok (out, notes) /\ NoDup (rows out).
Proof.
  apply (output_rows_distinct sample_pandas sample_trips).
  - unfold well_formed; simpl; repeat constructor.
  - discriminate.
Defined.

(** X15. Removing duplicates loses no row: on a frame with at least one
    column, all of one length, the rows of the output are the rows of the
    coerced frame. *)
Theorem rows_survive (P : pandas) (df : DataFrame) :
  well_formed df -> columns df <> [] ->
  exists (out : DataFrame) (notes : list note),
    prepare_taxi_data P df = Ok (out, notes)
    /\ forall r : row,
         In r (rows {| index := index df; columns := map (coerced P) (columns df) |})
         <-> In r (rows out).
Proof.
  intros Hwf Hc. rewrite prepare_taxi_data_eq. cbv zeta.
  eexists _, _; split; [reflexivity|].
  intros r. rewrite drop_duplicates_rows.
  - split; [|apply drop_marked_In].
    intros Hr. now destruct (kept_or_seen [] _ r Hr) as [[]|H].
  - now apply coerced_well_formed.
  - simpl. destruct (columns df); [contradiction | discriminate].
Qed.

Lemma rows_survive_witness :
  exists (out : DataFrame) (notes : list note),
    prepare_taxi_data sample_pandas sample_trips = Ok (out, notes)
    /\ forall r : row,
         In r (rows {| index := index sample_trips;
                       columns := map (coerced sample_pandas) (columns sample_trips) |})
         <-> In r (rows out).
Proof.
  apply (rows_survive sample_pandas sample_trips).
  - unfold well_formed; simpl; repeat constructor.
  - discriminate.
Defined.

(** X16. The Normalizer tells the user about removed rows exactly when
    its output is shorter than its input, once, with the number of rows
    that are gone. *)
Theorem note_counts_removed_rows (P : pandas) (df : DataFrame) :
  exists out : DataFrame,
    prepare_taxi_data P df
    = Ok (out, if Nat.ltb (len out) (len df)
               then [RemovedDuplicates (len df - len out)] else []).
Proof.
  rewrite prepare_taxi_data_eq. cbv zeta. eexists.
  change (len {| index := index df; columns := map (coerced P) (columns df) |})
    with (len df).
  do 2 f_equal.
  set (out := drop_duplicates _).
  destruct (Nat.ltb_spec 0 (len df - len out)), (Nat.ltb_spec (len out) (len df));
    try reflexivity; lia.
Qed.

(** *** Column names and integer columns *)

Lemma lower_app (a b : string) : lower (a ++ b) = (lower a ++ lower b)%string.
Proof. induction a as [|c a IH]; simpl; [reflexivity | now rewrite IH]. Qed.

(** X17. A name that has one of the four keywords anywhere inside it, in
    any letter case, is treated as the name of a timestamp column. *)
Theorem keyword_inside_name (pre s post keyword : string) :
  In keyword datetime_keywords -> lower s = keyword ->
  is_datetime_name (pre ++ s ++ post) = true.
Proof.
  intros Hk Hs. apply is_datetime_name_iff.
  exists keyword, (lower pre), (lower post). split; [exact Hk|].
  now rewrite !lower_app, Hs.
Qed.

Lemma keyword_inside_name_witness : is_datetime_name "LifeTIME_value" = true.
Proof.
  apply (keyword_inside_name "Life" "TIME" "_value" "time"); [simpl; auto | reflexivity].
Defined.




(** *** The data dictionary mappings *)

Lemma update_column_absent (name : string) (f : series -> series) (df : DataFrame) :
  has_column name df = false -> update_column name f df = df.
Proof.
  unfold has_column, update_column. destruct df as [idx cols]; simpl.
  intros H. f_equal. rewrite <- (map_id cols) at 2.
  apply map_ext_in. intros c Hc.
  destruct (String.eqb (col_name c) name) eqn:E; [|reflexivity].
  assert (existsb (fun c => String.eqb (col_name c) name) cols = true)
    by (apply existsb_exists; eauto).
  congruence.
Qed.

Lemma apply_data_mappings_eq (M : mapper) (df : DataFrame) :
  apply_data_mappings M df =
  {| index := index df;
     columns :=
       map (fun c =>
              if String.eqb (col_name c) "payment_type"
              then assign c (map_fillna M PAYMENT_TYPE_MAP (col_data c))
              else if String.eqb (col_name c) "VendorID"
              then assign c (map_fillna M VENDOR_ID_MAP (col_data c))
              else if String.eqb (col_name c) "RatecodeID"
              then assign c (map_fillna M RATECODE_ID_MAP (col_data c))
              else c)
           (columns df) |}.
Proof.
  assert (Hif : forall name f d,
             (if has_column name d then update_column name f d else d)
             = update_column name f d).
  { intros name f d. destruct (has_column name d) eqn:E; [reflexivity|].
    symmetry; now apply update_column_absent. }
  unfold apply_data_mappings. rewrite !Hif.
  unfold update_column; simpl. rewrite !map_map. f_equal.
  apply map_ext. intros [name s]. unfold assign; cbn [col_name col_data].
  destruct (String.eqb_spec name "payment_type") as [->|E]; [reflexivity|].
  cbn [col_name col_data].
  destruct (String.eqb_spec name "VendorID") as [->|E']; reflexivity.
Qed.

(** X19. The mappings keep the row labels and the column names, and leave
    every column other than [payment_type], [VendorID] and [RatecodeID] as
    it is, at its place. *)
Theorem mappings_keep_shape (M : mapper) (df : DataFrame) :
  index (apply_data_mappings M df) = index df
  /\ map col_name (columns (apply_data_mappings M df)) = map col_name (columns df)
  /\ forall (i : nat) (c : column),
       nth_error (columns df) i = Some c ->
       col_name c <> "payment_type" -> col_name c <> "VendorID" ->
       col_name c <> "RatecodeID" ->
       nth_error (columns (apply_data_mappings M df)) i = Some c.
Proof.
  rewrite apply_data_mappings_eq; simpl. split; [reflexivity|]. split.
  - rewrite map_map. apply map_ext. intros c.
    repeat (destruct (String.eqb _ _); [reflexivity|]). reflexivity.
  - intros i c Hc H1 H2 H3. rewrite nth_error_map, Hc; simpl.
    apply String.eqb_neq in H1, H2, H3. now rewrite H1, H2, H3.
Qed.

Lemma prefix_refl (s : string) : String.prefix s s = true.
Proof. apply prefix_iff. exists EmptyString. now rewrite string_app_nil_r. Qed.

Lemma labels_start_with_code (table : list (Z * string)) (z : Z) :
  In table [PAYMENT_TYPE_MAP; VENDOR_ID_MAP; RATECODE_ID_MAP] ->
  String.prefix (str_of_int z ++ " - ")
    match dict_get table z with
    | Some label => label
    | None => (str_of_int z ++ " - ")%string
    end = true.
Proof.
  intros [<-|[<-|[<-|[]]]];
    unfold PAYMENT_TYPE_MAP, VENDOR_ID_MAP, RATECODE_ID_MAP; cbn [dict_get];
    repeat match goal with
           | |- context [Z.eqb ?k z] =>
               destruct (Z.eqb_spec k z) as [<-|_]; [reflexivity|]
           end;
    apply prefix_refl.
Qed.

(** X20. In an integer [payment_type], [VendorID] or [RatecodeID] column
    every code listed in the column's table becomes its label, which begins
    with the code, and every other code becomes its decimal text; no entry
    is left missing. *)
Theorem integer_codes_labelled (M : mapper) (df : DataFrame) (i : nat)
  (name : string) (table : list (Z * string)) (w : int_width) (vs : list Z) :
  In (name, table) [("payment_type", PAYMENT_TYPE_MAP); ("VendorID", VENDOR_ID_MAP);
                    ("RatecodeID", RATECODE_ID_MAP)] ->
  nth_error (columns df) i = Some {| col_name := name; col_data := IntSeries w vs |} ->
  nth_error (columns (apply_data_mappings M df)) i
  = Some {| col_name := name;
            col_data := ObjectSeries
                          (map (fun z => Some match dict_get table z with
                                              | Some label => label
                                              | None => str_of_int z
                                              end) vs) |}
  /\ forall z label, dict_get table z = Some label ->
                     String.prefix (str_of_int z ++ " - ") label = true.
Proof.
  intros Hin Hc. split.
  - rewrite apply_data_mappings_eq; simpl. rewrite nth_error_map, Hc; simpl.
    destruct Hin as [E|[E|[E|[]]]]; inversion E; subst; reflexivity.
  - intros z label Hl.
    assert (Ht : In table [PAYMENT_TYPE_MAP; VENDOR_ID_MAP; RATECODE_ID_MAP])
      by (simpl in *; destruct Hin as [E|[E|[E|[]]]]; inversion E; auto).
    pose proof (labels_start_with_code table z Ht) as H. now rewrite Hl in H.
Qed.

Lemma integer_codes_labelled_witness :
  nth_error (columns (apply_data_mappings sample_mapper sample_trips)) 0
  = Some {| col_name := "VendorID";
            col_data := ObjectSeries
                          [Some "1 - Creative Mobile Technologies"; Some "2 - Curb Mobility";
                           Some "1 - Creative Mobile Technologies"; Some "2 - Curb Mobility";
                           Some "1 - Creative Mobile Technologies"] |}.
Proof.
  apply (integer_codes_labelled sample_mapper sample_trips 0 "VendorID" VENDOR_ID_MAP
           I64 [1; 2; 1; 2; 1]%Z); [simpl; auto | reflexivity].
Defined.

(** *** Loading one file from the dashboard *)

Lemma apply_data_mappings_names (M : mapper) (df : DataFrame) :
  map col_name (columns (apply_data_mappings M df)) = map col_name (columns df).
Proof.
  rewrite apply_data_mappings_eq; simpl. rewrite map_map. apply map_ext. intros c.
  repeat (destruct (String.eqb _ _); [reflexivity|]). reflexivity.
Qed.

(** X21. When the Fetcher fails, the frame kept in the session stays as
    it was; when it returns a frame, the session gets a frame with the
    column names of the parsed file, in their order, and with no more rows
    than the parsed file. *)
Theorem single_file_pipeline (W : world) (P : pandas) (M : mapper)
  (gdrive_url file_format : string) (fs : filesystem) (session_df : option DataFrame) :
  let r := load_data_from_gdrive W gdrive_url (output_file file_format) fs in
  let run := load_single_file W P M gdrive_url file_format fs session_df in
  (returned r = None -> run = Ok (session_df, disk r, trace r, []))
  /\ (forall df, returned r = Some df ->
        exists (out : DataFrame) (notes : list note),
          run = Ok (Some out, disk r, trace r, notes)
          /\ map col_name (columns out) = map col_name (columns df)
          /\ len out <= len df).
Proof.
  cbv zeta. unfold load_single_file. split.
  - intros ->. reflexivity.
  - intros df ->. rewrite prepare_taxi_data_eq. cbv zeta. cbn [bind fst snd].
    eexists _, _; split; [reflexivity|]. split.
    + rewrite apply_data_mappings_names, drop_duplicates_names; simpl.
      rewrite map_map. apply map_ext. intros c; apply col_name_coerced.
    + rewrite apply_data_mappings_eq. unfold len at 1; simpl.
      apply (drop_duplicates_len {| index := index df;
                                    columns := map (coerced P) (columns df) |}).
Qed.

(** *** Reading uploaded files *)

Lemma upload_reader_iff (U : upload_readers) (f : uploaded_file) :
  upload_reader U f = None <->
  forall pre, upload_name f <> (pre ++ ".csv")%string
              /\ upload_name f <> (pre ++ ".parquet")%string.
Proof.
  unfold upload_reader. split.
  - intros H pre.
    destruct (ends_with (upload_name f) ".csv") eqn:Ec; [discriminate|].
    destruct (ends_with (upload_name f) ".parquet") eqn:Ep; [discriminate|].
    split; intros E.
    + assert (ends_with (upload_name f) ".csv" = true)
        by (apply ends_with_iff; now exists pre). congruence.
    + assert (ends_with (upload_name f) ".parquet" = true)
        by (apply ends_with_iff; now exists pre). congruence.
  - intros H.
    destruct (ends_with (upload_name f) ".csv") eqn:Ec.
    { apply ends_with_iff in Ec as [pre E]. now apply (H pre) in E. }
    destruct (ends_with (upload_name f) ".parquet") eqn:Ep; [|reflexivity].
    apply ends_with_iff in Ep as [pre E]. now apply (H pre) in E.
Qed.

Lemma read_uploaded_files_ok (U : upload_readers) (total i : nat)
  (files : list uploaded_file) (dfs : list DataFrame) :
  (forall f e, In f files -> upload_reader U f <> Some (Raised e)) ->
  snd (read_uploaded_files U total i files dfs)
  = Ok (dfs ++ flat_map (fun f => match upload_reader U f with
                                  | Some (Ok df) => [df]
                                  | _ => []
                                  end) files).
Proof.
  revert i dfs; induction files as [|f files IH]; intros i dfs H; simpl.
  - now rewrite app_nil_r.
  - assert (H' : forall f0 e, In f0 files -> upload_reader U f0 <> Some (Raised e))
      by (intros f0 e Hin; apply H; now right).
    destruct (upload_reader U f) as [[df|e]|] eqn:E.
    + specialize (IH (S i) (dfs ++ [df]) H').
      destruct (read_uploaded_files U total (S i) files (dfs ++ [df])); simpl in *.
      rewrite IH, <- app_assoc. reflexivity.
    + exfalso; apply (H f e); [now left | exact E].
    + specialize (IH (S i) dfs H').
      destruct (read_uploaded_files U total (S i) files dfs); simpl in *.
      exact IH.
Qed.

Lemma read_uploaded_files_skipped (U : upload_readers) (total i : nat)
  (files : list uploaded_file) (dfs : list DataFrame) :
  (forall f e, In f files -> upload_reader U f <> Some (Raised e)) ->
  skipped_names (fst (read_uploaded_files U total i files dfs))
  = map upload_name
        (filter (fun f => match upload_reader U f with None => true | _ => false end)
                files).
Proof.
  revert i dfs; induction files as [|f files IH]; intros i dfs H; simpl; [reflexivity|].
  assert (H' : forall f0 e, In f0 files -> upload_reader U f0 <> Some (Raised e))
    by (intros f0 e Hin; apply H; now right).
  destruct (upload_reader U f) as [[df|e]|] eqn:E.
  - specialize (IH (S i) (dfs ++ [df]) H').
    destruct (read_uploaded_files U total (S i) files (dfs ++ [df])); simpl in *.
    exact IH.
  - exfalso; apply (H f e); [now left | exact E].
  - specialize (IH (S i) dfs H').
    destruct (read_uploaded_files U total (S i) files dfs); simpl in *.
    now rewrite IH.
Qed.

(** X22. When no reader raises, the loop ends with the frames of the
    uploaded [.csv] and [.parquet] files, in upload order; the files of any
    other name, and only those, are skipped with a warning and contribute
    nothing. *)
Theorem uploads_read_in_order (U : upload_readers) (files : list uploaded_file) :
  (forall f e, In f files -> upload_reader U f <> Some (Raised e)) ->
  let run := read_uploaded_files U (length files) 0 files [] in
  snd run = Ok (flat_map (fun f => match upload_reader U f with
                                   | Some (Ok df) => [df]
                                   | _ => []
                                   end) files)
  /\ skipped_names (fst run)
     = map upload_name
           (filter (fun f => match upload_reader U f with None => true | _ => false end)
                   files)
  /\ forall f, upload_reader U f = None <->
               forall pre, upload_name f <> (pre ++ ".csv")%string
                           /\ upload_name f <> (pre ++ ".parquet")%string.
Proof.
  intros H. cbv zeta. split; [now rewrite read_uploaded_files_ok|].
  split; [now apply read_uploaded_files_skipped | apply upload_reader_iff].
Qed.

Lemma uploads_read_in_order_witness :
  let U := sample_readers [("jan.parquet", Ok sample_trips); ("feb.csv", Ok sample_trips)] in
  let files := [Upload "jan.parquet" "PAR1"; Upload "notes.txt" "hello";
                Upload "feb.csv" "a,b"] in
  snd (read_uploaded_files U 3 0 files []) = Ok [sample_trips; sample_trips]
  /\ skipped_names (fst (read_uploaded_files U 3 0 files [])) = ["notes.txt"].
Proof.
  intros U files.
  destruct (uploads_read_in_order U files) as [Hread [Hskip _]].
  - intros f e [<-|[<-|[<-|[]]]]; discriminate.
  - split; [exact Hread | exact Hskip].
Defined.

Lemma read_uploaded_files_app (U : upload_readers) (total i : nat)
  (before after : list uploaded_file) (dfs : list DataFrame) :
  (forall f e, In f before -> upload_reader U f <> Some (Raised e)) ->
  exists dfs',
    snd (read_uploaded_files U total i (before ++ after) dfs)
    = snd (read_uploaded_files U total (i + length before) after dfs')
    /\ visited_names (fst (read_uploaded_files U total i (before ++ after) dfs))
       = map upload_name before
         ++ visited_names (fst (read_uploaded_files U total (i + length before) after dfs')).
Proof.
  revert i dfs; induction before as [|f before IH]; intros i dfs H; simpl.
  - exists dfs. now rewrite Nat.add_0_r.
  - assert (H' : forall f0 e, In f0 before -> upload_reader U f0 <> Some (Raised e))
      by (intros f0 e Hin; apply H; now right).
    replace (i + S (length before)) with (S i + length before) by lia.
    destruct (upload_reader U f) as [[df|e]|] eqn:E.
    + destruct (IH (S i) (dfs ++ [df]) H') as [dfs' [Hs Hv]]. exists dfs'.
      destruct (read_uploaded_files U total (S i) (before ++ after) (dfs ++ [df])).
      simpl in *. now rewrite Hs, Hv.
    + exfalso; apply (H f e); [now left | exact E].
    + destruct (IH (S i) dfs H') as [dfs' [Hs Hv]]. exists dfs'.
      destruct (read_uploaded_files U total (S i) (before ++ after) dfs).
      simpl in *. now rewrite Hs, Hv.
Qed.

(** X23. The first file whose reader raises ends the loop with that
    exception: the frames read before it are lost with it, and no later file
    is looked at. *)
Theorem upload_failure_aborts (U : upload_readers)
  (before after : list uploaded_file) (f : uploaded_file) (e : exn) :
  (forall f0 e0, In f0 before -> upload_reader U f0 <> Some (Raised e0)) ->
  upload_reader U f = Some (Raised e) ->
  let files := before ++ f :: after in
  let run := read_uploaded_files U (length files) 0 files [] in
  snd run = Raised e
  /\ visited_names (fst run) = map upload_name before ++ [upload_name f].
Proof.
  intros Hbefore Hf. cbv zeta.
  destruct (read_uploaded_files_app U (length (before ++ f :: after)) 0 before
              (f :: after) [] Hbefore) as [dfs' [Hs Hv]].
  rewrite Hs, Hv. simpl. rewrite Hf. simpl. auto.
Qed.

Lemma upload_failure_aborts_witness :
  let U := sample_readers [("jan.parquet", Ok sample_trips);
                           ("feb.csv", Raised (Exception "bad header"));
                           ("mar.csv", Ok sample_trips)] in
  let files := [Upload "jan.parquet" "PAR1"; Upload "feb.csv" "oops";
                Upload "mar.csv" "a,b"] in
  snd (read_uploaded_files U 3 0 files []) = Raised (Exception "bad header")
  /\ visited_names (fst (read_uploaded_files U 3 0 files [])) = ["jan.parquet"; "feb.csv"].
Proof.
  intros U files.
  apply (upload_failure_aborts U [Upload "jan.parquet" "PAR1"] [Upload "mar.csv" "a,b"]
           (Upload "feb.csv" "oops") (Exception "bad header")).
  - intros f0 e0 [<-|[]]; discriminate.
  - reflexivity.
Defined.
